(** * oor_benchmark: the scArches + Milo workflow

    A shallow embedding of [src/oor_benchmark/methods/scArches_milo.py].

    The workflow is orchestration code over scvi-tools, scanpy and milopy.
    Those libraries are modelled as a record of oracles ([Externals]); the
    subsetting, the control flow around the persisted models, the neighbour
    count and the reshaping of the result table are modelled from the source.
    Python objects live in a heap of [AnnData] values addressed by location,
    so that rebinding a local name to a copy and mutating that copy in place
    can be told apart from mutating the caller's object. *)

From Stdlib Require Import ZArith Floats.SpecFloat.
From stdpp Require Import gmap strings list.

Set Warnings "-register-all".
Open Scope string_scope.
Open Scope list_scope.
Open Scope nat_scope.

(** ** Python values *)

(** A Python [float] is an IEEE 754 binary64 number. *)
Definition float : Type := spec_float.

Definition float_of_int (z : Z) : float := binary_normalize 53 1024 z 0 false.

(** The default [signif_alpha = 0.1] and the [prop = 0.1] of [make_nhoods]:
    the binary64 number nearest to one tenth. *)
Definition float_0_1 : float := S754_finite false 7205759403792794 (-56).

Inductive pyval :=
  | PyNone
  | PyBool (b : bool)
  | PyInt (z : Z)
  | PyFloat (f : float)
  | PyStr (s : string).

(** ** Exceptions

    An exception carries its class, the classes it derives from and its
    message; [except C] catches every instance of [C], subclasses included. *)

Record exn := Exn { exn_class : string; exn_bases : list string; exn_msg : string }.

Definition isinstance (e : exn) (c : string) : bool :=
  bool_decide (c ∈ exn_class e :: exn_bases e).

Definition ValueError (msg : string) : exn := Exn "ValueError" ["Exception"; "BaseException"] msg.
Definition FileNotFoundError (msg : string) : exn :=
  Exn "FileNotFoundError" ["OSError"; "Exception"; "BaseException"] msg.
Definition KeyError (msg : string) : exn :=
  Exn "KeyError" ["LookupError"; "Exception"; "BaseException"] msg.
Definition TypeError (msg : string) : exn := Exn "TypeError" ["Exception"; "BaseException"] msg.
Definition AttributeError (msg : string) : exn :=
  Exn "AttributeError" ["Exception"; "BaseException"] msg.
Definition ReferenceError (msg : string) : exn :=
  Exn "ReferenceError" ["Exception"; "BaseException"] msg.

Definition pyresult (A : Type) : Type := exn + A.

Fixpoint traverse {A B} (f : A → pyresult B) (l : list A) : pyresult (list B) :=
  match l with
  | [] => inr []
  | x :: l =>
      match f x with
      | inl e => inl e
      | inr y => match traverse f l with inl e => inl e | inr ys => inr (y :: ys) end
      end
  end.

(** ** pandas: Series and DataFrame *)

(** A column of a data frame, by dtype: object (strings), bool, int64 and
    float64. *)
Inductive Series :=
  | ColStr (l : list string)
  | ColBool (l : list bool)
  | ColInt (l : list Z)
  | ColFloat (l : list float).

(** One cell of a column. *)
Inductive value :=
  | VStr (s : string)
  | VBool (b : bool)
  | VInt (z : Z)
  | VFloat (f : float).

Definition Series_values (s : Series) : list value :=
  match s with
  | ColStr l => VStr <$> l
  | ColBool l => VBool <$> l
  | ColInt l => VInt <$> l
  | ColFloat l => VFloat <$> l
  end.

Definition Series_len (s : Series) : nat := length (Series_values s).

(** Selection with a boolean mask: the positions where the mask is true. *)
Fixpoint mask_filter {A} (m : list bool) (l : list A) : list A :=
  match m, l with
  | b :: m, x :: l => if b then x :: mask_filter m l else mask_filter m l
  | _, _ => []
  end.

Definition Series_mask (m : list bool) (s : Series) : Series :=
  match s with
  | ColStr l => ColStr (mask_filter m l)
  | ColBool l => ColBool (mask_filter m l)
  | ColInt l => ColInt (mask_filter m l)
  | ColFloat l => ColFloat (mask_filter m l)
  end.

(** [s == x], [s != x] and [s.isin(xs)] against strings. A cell that is not
    a string is equal to no string. *)
Definition value_eq_str (x : string) (v : value) : bool :=
  match v with VStr s => bool_decide (s = x) | _ => false end.

Definition Series_eq_str (s : Series) (x : string) : list bool :=
  value_eq_str x <$> Series_values s.

Definition Series_ne_str (s : Series) (x : string) : list bool :=
  (λ v, negb (value_eq_str x v)) <$> Series_values s.

Definition value_isin (xs : list string) (v : value) : bool :=
  match v with VStr s => bool_decide (s ∈ xs) | _ => false end.

Definition Series_isin (s : Series) (xs : list string) : list bool :=
  value_isin xs <$> Series_values s.

(** [v < x] for a float [x] and [v > z] for an int [z]: numbers compare by
    value (an int64 or bool cell is converted to float64 against a float),
    a string raises. *)
Definition value_lt_float (x : float) (v : value) : pyresult bool :=
  match v with
  | VFloat f => inr (SFltb f x)
  | VInt z => inr (SFltb (float_of_int z) x)
  | VBool b => inr (SFltb (float_of_int (Z.b2z b)) x)
  | VStr _ => inl (TypeError "'<' not supported between instances of 'str' and 'float'")
  end.

Definition value_gt_int (z : Z) (v : value) : pyresult bool :=
  match v with
  | VFloat f => inr (SFltb (float_of_int z) f)
  | VInt y => inr (z <? y)%Z
  | VBool b => inr (z <? Z.b2z b)%Z
  | VStr _ => inl (TypeError "'>' not supported between instances of 'str' and 'int'")
  end.

Definition Series_lt_float (s : Series) (x : float) : pyresult (list bool) :=
  traverse (value_lt_float x) (Series_values s).

Definition Series_gt_int (s : Series) (z : Z) : pyresult (list bool) :=
  traverse (value_gt_int z) (Series_values s).

(** [a & b] on boolean columns of one frame, and [.astype(int)]. *)
Definition Series_and (a b : list bool) : list bool := zip_with andb a b.

Definition astype_int (m : list bool) : Series := ColInt (Z.b2z <$> m).

(** [s.unique()]: the distinct cells in order of first appearance. pandas
    hashes float64 keys by value, so [0.0] and [-0.0] are one key and NaN is
    equal to itself. *)
Definition hash_key (v : value) : value :=
  match v with
  | VFloat (S754_zero _) => VFloat (S754_zero false)
  | _ => v
  end.

Global Instance float_eq_dec : EqDecision float.
Proof. solve_decision. Defined.
Global Instance value_eq_dec : EqDecision value.
Proof. solve_decision. Defined.

Fixpoint unique_keys (seen : list value) (l : list value) : list value :=
  match l with
  | [] => []
  | v :: l =>
      if bool_decide (hash_key v ∈ seen) then unique_keys seen l
      else v :: unique_keys (hash_key v :: seen) l
  end.

Definition Series_unique (s : Series) : list value := unique_keys [] (Series_values s).

Record DataFrame := mkDataFrame { index : list string; columns : gmap string Series }.

(** [df[c]] *)
Definition df_get (df : DataFrame) (c : string) : pyresult Series :=
  match columns df !! c with
  | Some s => inr s
  | None => inl (KeyError c)
  end.

(** [df[c] = s] for a column computed from [df] itself (same index). *)
Definition df_set (df : DataFrame) (c : string) (s : Series) : DataFrame :=
  mkDataFrame (index df) (<[c := s]> (columns df)).

Definition df_mask (m : list bool) (df : DataFrame) : DataFrame :=
  mkDataFrame (mask_filter m (index df)) (Series_mask m <$> columns df).

(** ** numpy: two-dimensional arrays *)

Record ndarray := mkArray { ncols : nat; rows : list (list float) }.

Definition nrows (m : ndarray) : nat := length (rows m).

(** [np.vstack([a, b])] raises [ValueError] when the widths differ. *)
Definition vstack (a b : ndarray) : pyresult ndarray :=
  if bool_decide (ncols a = ncols b) then inr (mkArray (ncols a) (rows a ++ rows b))
  else inl (ValueError "all the input array dimensions except for the concatenation axis must match exactly").

Definition column_of (j : nat) (rs : list (list float)) : list float :=
  (λ r, default (S754_zero false) (r !! j)) <$> rs.

(** [m.T] *)
Definition transpose (m : ndarray) : ndarray :=
  mkArray (nrows m) ((λ j, column_of j (rows m)) <$> seq 0 (ncols m)).

Definition array_mask_rows (m : list bool) (a : ndarray) : ndarray :=
  mkArray (ncols a) (mask_filter m (rows a)).

(** Rows and columns at once, for the cell-by-cell graphs of [obsp]. *)
Definition array_mask_square (m : list bool) (a : ndarray) : ndarray :=
  mkArray (length (mask_filter m (replicate (ncols a) ())))
          (mask_filter m <$> mask_filter m (rows a)).

(** ** AnnData *)

Record AnnData_ (U : Type) := mkAnnData {
  X : ndarray;
  obs : DataFrame;
  var : DataFrame;
  obsm : gmap string ndarray;
  varm : gmap string ndarray;
  obsp : gmap string ndarray;
  varp : gmap string ndarray;
  uns : gmap string U }.
Arguments mkAnnData {U}.
Arguments X {U}.
Arguments obs {U}.
Arguments var {U}.
Arguments obsm {U}.
Arguments varm {U}.
Arguments obsp {U}.
Arguments varp {U}.
Arguments uns {U}.

(** The unstructured annotations hold AnnData objects of their own (the
    neighbourhood table, the harmonized table) next to plain values. *)
Inductive uns_value :=
  | UnsAnnData (a : AnnData_ uns_value)
  | UnsOther (v : pyval).

Abbreviation AnnData := (AnnData_ uns_value).

Definition n_obs (a : AnnData) : nat := length (index (obs a)).
Definition n_vars (a : AnnData) : nat := length (index (var a)).
Definition obs_names (a : AnnData) : list string := index (obs a).

(** [adata[mask]] with a boolean mask over the observations, followed by
    [.copy()]: every per-observation field is restricted to the selected
    rows, the rest is carried over. *)
Definition subset_obs (m : list bool) (a : AnnData) : AnnData :=
  mkAnnData (array_mask_rows m (X a)) (df_mask m (obs a)) (var a)
            (array_mask_rows m <$> obsm a) (varm a)
            (array_mask_square m <$> obsp a) (varp a) (uns a).

(** [adata.T] *)
Definition AnnData_T (a : AnnData) : AnnData :=
  mkAnnData (transpose (X a)) (var a) (obs a) (varm a) (obsm a) (varp a) (obsp a) (uns a).

Definition set_obs (df : DataFrame) (a : AnnData) : AnnData :=
  mkAnnData (X a) df (var a) (obsm a) (varm a) (obsp a) (varp a) (uns a).
Definition set_var (df : DataFrame) (a : AnnData) : AnnData :=
  mkAnnData (X a) (obs a) df (obsm a) (varm a) (obsp a) (varp a) (uns a).
Definition set_uns (u : gmap string uns_value) (a : AnnData) : AnnData :=
  mkAnnData (X a) (obs a) (var a) (obsm a) (varm a) (obsp a) (varp a) u.

(** [adata.obsm[k] = m] and [adata.varm[k] = m]: the first dimension is
    checked against the axis. *)
Definition set_obsm (k : string) (m : ndarray) (a : AnnData) : pyresult AnnData :=
  if bool_decide (nrows m = n_obs a)
  then inr (mkAnnData (X a) (obs a) (var a) (<[k := m]> (obsm a)) (varm a) (obsp a) (varp a) (uns a))
  else inl (ValueError "Value passed for key is of incorrect shape").

Definition set_varm (k : string) (m : ndarray) (a : AnnData) : pyresult AnnData :=
  if bool_decide (nrows m = n_vars a)
  then inr (mkAnnData (X a) (obs a) (var a) (obsm a) (<[k := m]> (varm a)) (obsp a) (varp a) (uns a))
  else inl (ValueError "Value passed for key is of incorrect shape").

Definition get_obsm (a : AnnData) (k : string) : pyresult ndarray :=
  match obsm a !! k with
  | Some m => inr m
  | None => inl (KeyError k)
  end.

(** [adata.uns[k]] used as an AnnData. *)
Definition get_uns_adata (a : AnnData) (k : string) : pyresult AnnData :=
  match uns a !! k with
  | Some (UnsAnnData n) => inr n
  | Some (UnsOther _) => inl (AttributeError "object has no attribute 'T'")
  | None => inl (KeyError k)
  end.

(** ** scvi-tools: a persisted model

    A model loaded from disk comes with the AnnData it was saved with;
    [get_latent_representation()] without argument encodes the cells of
    that AnnData, one row per cell, in their order. *)
Record SCVI := mkSCVI {
  model_obs_names : list string;
  get_latent_representation : pyresult ndarray }.

(** ** The external libraries *)

Definition loc : Type := nat.

(** A call into an external library, with the arguments it was given. *)
Inductive event :=
  | EvLoad (dir_path : string)
  | EvTrain (a : AnnData) (ref_dataset : string) (outdir : option string)
            (batch_key : string) (kwargs : gmap string pyval)
  | EvNeighbors (a : AnnData) (use_rep : string) (n_neighbors : Z)
  | EvMakeNhoods (a : AnnData) (prop : float)
  | EvCountNhoods (a : AnnData) (sample_col : string)
  | EvAnnotateNhoods (a : AnnData) (anno_col : string)
  | EvDANhoods (a : AnnData) (design : string).

(** Each oracle stands for a call that has entered the library function,
    the binding of the arguments to its parameters included: it either
    raises or gives the state of the object it was handed after the call,
    and it writes to no other object. What the interpreter checks before
    the function is entered (a keyword given twice) is not the oracle's
    but the caller's, see [train_embedding].
    [milopy_annotate_nhoods] writes to the neighbourhood table only and
    gives that table. [embedding_scArches] is imported from
    [._latent_embedding], which is not among the sources at hand; like the
    libraries it is called through its interface only. *)
Record Externals := mkExternals {
  SCVI_load : string → pyresult SCVI;
  embedding_scArches :
    AnnData → string → option string → string → gmap string pyval → pyresult AnnData;
  sc_pp_neighbors : AnnData → string → Z → pyresult AnnData;
  milopy_make_nhoods : AnnData → float → pyresult AnnData;
  milopy_count_nhoods : AnnData → string → pyresult AnnData;
  milopy_annotate_nhoods : AnnData → string → pyresult AnnData;
  milopy_DA_nhoods : AnnData → string → pyresult AnnData }.

(** ** The interpreter state and its monad *)

Record World := mkWorld { heap : list AnnData; trace : list event }.

Definition M (A : Type) : Type := World → World * pyresult A.

Global Instance M_ret : MRet M := λ A a w, (w, inr a).
Global Instance M_bind : MBind M := λ A B f m w,
  match m w with
  | (w', inr a) => f a w'
  | (w', inl e) => (w', inl e)
  end.

Definition raise {A} (e : exn) : M A := λ w, (w, inl e).
Definition lift {A} (r : pyresult A) : M A := λ w, (w, r).

Definition deref (l : loc) : M AnnData := λ w,
  match heap w !! l with
  | Some a => (w, inr a)
  | None => (w, inl (ReferenceError "dangling reference"))
  end.

Definition alloc (a : AnnData) : M loc := λ w,
  (mkWorld (heap w ++ [a]) (trace w), inr (length (heap w))).

Definition store (l : loc) (a : AnnData) : M unit := λ w,
  (mkWorld (<[l := a]> (heap w)) (trace w), inr ()).

Definition emit (ev : event) : M unit := λ w,
  (mkWorld (heap w) (trace w ++ [ev]), inr ()).

(** [try: body except <catches>: handler] *)
Definition try_except {A} (body : M A) (catches : exn → bool) (handler : M A) : M A := λ w,
  match body w with
  | (w', inl e) => if catches e then handler w' else (w', inl e)
  | r => r
  end.

(** A library call that works in place on the object at [l]. *)
Definition call_inplace (l : loc) (ev : AnnData → event) (f : AnnData → pyresult AnnData)
  : M unit :=
  a ← deref l;
  emit (ev a);;
  a' ← lift (f a);
  store l a'.

(** ** The workflow *)

Section Workflow.
Context (ext : Externals).

(** [run_milo], lines 10-39. The neighbourhood table is one object, shared
    by [adata_design] and the view handed to [annotate_nhoods]. *)
Definition run_milo (adata_design : loc)
    (query_group reference_group sample_col annotation_col design : string) : M unit :=
  call_inplace adata_design (λ a, EvMakeNhoods a float_0_1)
    (λ a, milopy_make_nhoods ext a float_0_1);;
  call_inplace adata_design (λ a, EvCountNhoods a sample_col)
    (λ a, milopy_count_nhoods ext a sample_col);;
  a ← deref adata_design;
  grp ← lift (df_get (obs a) "dataset_group");
  let view := subset_obs (Series_eq_str grp reference_group) a in
  emit (EvAnnotateNhoods view annotation_col);;
  nh ← lift (milopy_annotate_nhoods ext view annotation_col);
  store adata_design (set_uns (alter (λ _, UnsAnnData nh) "nhood_adata" (uns a)) a);;
  a ← deref adata_design;
  grp ← lift (df_get (obs a) "dataset_group");
  store adata_design
    (set_obs (df_set (obs a) "is_query" (ColBool (Series_eq_str grp query_group))) a);;
  call_inplace adata_design (λ a, EvDANhoods a design) (λ a, milopy_DA_nhoods ext a design).

(** Line 79: subset to the datasets of interest, and copy. *)
Definition select_datasets (adata : loc) (embedding_reference diff_reference : string)
  : M loc :=
  a ← deref adata;
  grp ← lift (df_get (obs a) "dataset_group");
  alloc (subset_obs (Series_isin grp [embedding_reference; diff_reference; "query"]) a).

Definition model_dir (outdir embedding_reference : string) : string :=
  outdir +:+ "/model_" +:+ embedding_reference +:+ "/".
Definition model_fit_dir (outdir embedding_reference : string) : string :=
  outdir +:+ "/model_fit_query2" +:+ embedding_reference +:+ "/".

Definition load_model (dir_path : string) : M SCVI :=
  emit (EvLoad dir_path);;
  lift (SCVI_load ext dir_path).

(** Lines 86-90: the body of the [try]. *)
Definition load_persisted_embedding (adata : loc) (embedding_reference outdir : string)
  : M unit :=
  vae_ref ← load_model (model_dir outdir embedding_reference);
  vae_q ← load_model (model_fit_dir outdir embedding_reference);
  z_q ← lift (get_latent_representation vae_q);
  z_ref ← lift (get_latent_representation vae_ref);
  z ← lift (vstack z_q z_ref);
  a ← deref adata;
  a' ← lift (set_obsm "X_scVI" z a);
  store adata a'.

(** The keywords that lines 92-94 and 96 pass to [embedding_scArches] by
    name, next to [**kwargs]. *)
Definition passed_keywords : list string := ["ref_dataset"; "outdir"; "batch_key"].

(** [**kwargs] gives one of them again. *)
Definition repeated_keyword (kwargs : gmap string pyval) : bool :=
  existsb (λ k, bool_decide (is_Some (kwargs !! k))) passed_keywords.

(** Lines 92-94 and 96: the call of [embedding_scArches]. A keyword given
    twice is a [TypeError] of the call itself: the function is not entered
    and nothing has happened. The interpreter's message ends with the name
    of the keyword, which is left out here. *)
Definition train_embedding (adata : loc) (embedding_reference : string)
    (outdir : option string) (kwargs : gmap string pyval) : M unit :=
  if repeated_keyword kwargs
  then raise (TypeError "embedding_scArches() got multiple values for keyword argument")
  else
    call_inplace adata (λ a, EvTrain a embedding_reference outdir "sample_id" kwargs)
      (λ a, embedding_scArches ext a embedding_reference outdir "sample_id" kwargs).

(** Line 91: [except (ValueError, FileNotFoundError)]. *)
Definition load_failure (e : exn) : bool :=
  isinstance e "ValueError" || isinstance e "FileNotFoundError".

(** Lines 82-96. *)
Definition embed (adata : loc) (embedding_reference : string) (outdir : option string)
    (kwargs : gmap string pyval) : M unit :=
  a ← deref adata;
  if bool_decide (is_Some (obsm a !! "X_scVI")) then mret ()
  else match outdir with
       | Some d =>
           try_except (load_persisted_embedding adata embedding_reference d) load_failure
             (train_embedding adata embedding_reference outdir kwargs)
       | None => train_embedding adata embedding_reference outdir kwargs
       end.

(** Lines 99-100: the local name is bound to a copy without the embedding
    reference when that group is not the one of the differential analysis. *)
Definition drop_embedding_reference (adata : loc)
    (embedding_reference diff_reference : string) : M loc :=
  if bool_decide (diff_reference ≠ embedding_reference) then
    a ← deref adata;
    grp ← lift (df_get (obs a) "dataset_group");
    alloc (subset_obs (Series_ne_str grp embedding_reference) a)
  else mret adata.

(** [adata[adata.obs["dataset_group"] == group].obs[sample_col].unique().shape[0]] *)
Definition n_samples (a : AnnData) (group sample_col : string) : M Z :=
  grp ← lift (df_get (obs a) "dataset_group");
  s ← lift (df_get (obs (subset_obs (Series_eq_str grp group) a)) sample_col);
  mret (Z.of_nat (length (Series_unique s))).

(** Lines 103-105. *)
Definition make_knn_graph (adata : loc) (diff_reference sample_col : string) : M unit :=
  a ← deref adata;
  n_controls ← n_samples a diff_reference sample_col;
  n_querys ← n_samples a "query" sample_col;
  call_inplace adata (λ a, EvNeighbors a "X_scVI" ((n_controls + n_querys) * 5))
    (λ a, sc_pp_neighbors ext a "X_scVI" ((n_controls + n_querys) * 5)).

(** Lines 111-117. [sample_adata] is a local copy until it is attached. *)
Definition harmonize (adata : loc) (signif_alpha : float) : M unit :=
  a ← deref adata;
  nhood_adata ← lift (get_uns_adata a "nhood_adata");
  let sample_adata := AnnData_T nhood_adata in
  logFC ← lift (df_get (var sample_adata) "logFC");
  let sample_adata := set_var (df_set (var sample_adata) "OOR_score" logFC) sample_adata in
  fdr ← lift (df_get (var sample_adata) "SpatialFDR");
  signif ← lift (Series_lt_float fdr signif_alpha);
  logFC ← lift (df_get (var sample_adata) "logFC");
  enriched ← lift (Series_gt_int logFC 0);
  let sample_adata :=
    set_var (df_set (var sample_adata) "OOR_signif" (astype_int (Series_and signif enriched)))
            sample_adata in
  nhoods ← lift (get_obsm a "nhoods");
  sample_adata ← lift (set_varm "groups" (transpose nhoods) sample_adata);
  store adata (set_uns (<["sample_adata" := UnsAnnData sample_adata]> (uns a)) a).

(** [scArches_milo], lines 42-118. *)
Definition scArches_milo (adata : loc) (embedding_reference diff_reference : string)
    (sample_col annotation_col : string) (signif_alpha : float) (outdir : option string)
    (harmonize_output : bool) (milo_design : string) (kwargs : gmap string pyval) : M loc :=
  adata ← select_datasets adata embedding_reference diff_reference;
  embed adata embedding_reference outdir kwargs;;
  adata ← drop_embedding_reference adata embedding_reference diff_reference;
  make_knn_graph adata diff_reference sample_col;;
  run_milo adata "query" diff_reference sample_col annotation_col milo_design;;
  (if harmonize_output then harmonize adata signif_alpha else mret ());;
  mret adata.

(** Lines 98-118 on their own: what [scArches_milo] does once the embedding
    is in place. *)
Definition after_embedding (adata : loc) (embedding_reference diff_reference : string)
    (sample_col annotation_col : string) (signif_alpha : float)
    (harmonize_output : bool) (milo_design : string) : M loc :=
  adata ← drop_embedding_reference adata embedding_reference diff_reference;
  make_knn_graph adata diff_reference sample_col;;
  run_milo adata "query" diff_reference sample_col annotation_col milo_design;;
  (if harmonize_output then harmonize adata signif_alpha else mret ());;
  mret adata.

(** The keyword arguments of a call of [scArches_milo]: the named parameters
    that were given, and the remaining ones for [embedding_scArches]. *)
Record Kwargs := mkKwargs {
  kw_embedding_reference : option string;
  kw_diff_reference : option string;
  kw_sample_col : option string;
  kw_annotation_col : option string;
  kw_signif_alpha : option float;
  kw_outdir : option (option string);
  kw_harmonize_output : option bool;
  kw_milo_design : option string;
  kw_rest : gmap string pyval }.

(** [scArches_milo(adata, **kw)]: parameters not given take the defaults of
    the signature (lines 44-51). *)
Definition call_scArches_milo (adata : loc) (kw : Kwargs) : M loc :=
  scArches_milo adata
    (default "atlas" (kw_embedding_reference kw))
    (default "ctrl" (kw_diff_reference kw))
    (default "sample_id" (kw_sample_col kw))
    (default "cell_annotation" (kw_annotation_col kw))
    (default float_0_1 (kw_signif_alpha kw))
    (default None (kw_outdir kw))
    (default true (kw_harmonize_output kw))
    (default "~ is_query" (kw_milo_design kw))
    (kw_rest kw).

(** [scArches_milo(adata, embedding_reference=er, diff_reference=dr, **kwargs)]:
    a keyword given twice is a [TypeError] at the call. *)
Definition call_with_references (adata : loc) (er dr : string) (kwargs : Kwargs) : M loc :=
  match kw_embedding_reference kwargs, kw_diff_reference kwargs with
  | None, None =>
      call_scArches_milo adata
        (mkKwargs (Some er) (Some dr) (kw_sample_col kwargs) (kw_annotation_col kwargs)
                  (kw_signif_alpha kwargs) (kw_outdir kwargs) (kw_harmonize_output kwargs)
                  (kw_milo_design kwargs) (kw_rest kwargs))
  | _, _ => raise (TypeError "scArches_milo() got multiple values for keyword argument")
  end.

(** Lines 121-133. *)
Definition scArches_atlas_milo_ctrl (adata : loc) (kwargs : Kwargs) : M loc :=
  call_with_references adata "atlas" "ctrl" kwargs.

Definition scArches_atlas_milo_atlas (adata : loc) (kwargs : Kwargs) : M loc :=
  call_with_references adata "atlas" "atlas" kwargs.

Definition scArches_ctrl_milo_ctrl (adata : loc) (kwargs : Kwargs) : M loc :=
  call_with_references adata "ctrl" "ctrl" kwargs.

End Workflow.


(** * Vocabulary of the statements *)

(** The group labels of the cells, and the sample identifiers of the cells
    of one group, in row order. *)
Definition group_values (a : AnnData) : list value :=
  match columns (obs a) !! "dataset_group" with
  | Some grp => Series_values grp
  | None => []
  end.

Definition group_samples (a : AnnData) (sample_col group : string) : list value :=
  match columns (obs a) !! "dataset_group", columns (obs a) !! sample_col with
  | Some grp, Some s =>
      (filter (λ p, p.1 = VStr group) (zip (Series_values grp) (Series_values s))).*2
  | _, _ => []
  end.

(** The number of distinct identifiers in a list. *)
Definition n_distinct (l : list value) : nat := length (remove_dups (hash_key <$> l)).

(** The rows of a frame that satisfy [keep], by name, given one key per
    row. *)
Definition rows_where (keep : value → Prop) `{∀ v, Decision (keep v)}
    (names : list string) (keys : list value) : list string :=
  (filter (λ p, keep p.2) (zip names keys)).*1.

Definition is_load (ev : event) : bool :=
  match ev with EvLoad _ => true | _ => false end.
Definition is_train (ev : event) : bool :=
  match ev with EvTrain _ _ _ _ _ => true | _ => false end.
Definition is_neighbors (ev : event) : bool :=
  match ev with EvNeighbors _ _ _ => true | _ => false end.

Definition is_milo (ev : event) : bool :=
  match ev with
  | EvMakeNhoods _ _ | EvCountNhoods _ _ | EvAnnotateNhoods _ _ | EvDANhoods _ _ => true
  | _ => false
  end.



(** Every run of [m] extends the trace by events that satisfy [P]. *)
Definition emits {A} (P : event → Prop) (m : M A) : Prop :=
  ∀ w w' r, m w = (w', r) → ∃ evs, trace w' = trace w ++ evs ∧ Forall P evs.

(** Every run of [m] leaves the first [n] objects of the heap as they are,
    and a value it returns satisfies [R]. *)
Definition frames {A} (n : nat) (R : A → Prop) (m : M A) : Prop :=
  ∀ w w' r, m w = (w', r) → n ≤ length (heap w) →
    take n (heap w') = take n (heap w) ∧ n ≤ length (heap w') ∧ ∀ a, r = inr a → R a.

(** What the graph builder is asked for. *)
Definition neighbors_ok (diff_reference sample_col : string) (ev : event) : Prop :=
  match ev with
  | EvNeighbors a use_rep k =>
      use_rep = "X_scVI" ∧
      k = (5 * (Z.of_nat (n_distinct (group_samples a sample_col diff_reference))
                + Z.of_nat (n_distinct (group_samples a sample_col "query"))))%Z
  | _ => True
  end.

(** The test covariate that the differential test is given. *)
Definition is_query_ok (ev : event) : Prop :=
  match ev with
  | EvDANhoods a _ =>
      ∃ grp, columns (obs a) !! "dataset_group" = Some grp ∧
             columns (obs a) !! "is_query" = Some (ColBool (Series_eq_str grp "query"))
  | _ => True
  end.


(** Row [i] of [z] is the latent vector of the cell in row [i]. *)
Definition aligned (latent : string → list float) (names : list string) (z : ndarray) : Prop :=
  ∀ i name, names !! i = Some name → rows z !! i = Some (latent name).

(** * A small cohort

    One atlas cell, two control cells from two samples, three query cells
    from three samples and one cell of an unrelated group; stand-ins for
    the external libraries that do the least the workflow needs. *)
Module Demo.

Definition f_zero : float := S754_zero false.
Definition f_one : float := S754_finite false 4503599627370496 (-52).
Definition f_minus_one : float := S754_finite true 4503599627370496 (-52).
Definition f_two : float := S754_finite false 4503599627370496 (-51).
Definition f_0_01 : float := S754_finite false 5764607523034235 (-59).

Definition cohort (names groups samples : list string) : AnnData :=
  mkAnnData (mkArray 1 ((λ _, [f_zero]) <$> names))
    (mkDataFrame names
       (<["dataset_group" := ColStr groups]> (<["sample_id" := ColStr samples]> ∅)))
    (mkDataFrame ["g1"] ∅) ∅ ∅ ∅ ∅ ∅.

Definition adata0 : AnnData :=
  cohort ["a1"; "c1"; "c2"; "q1"; "q2"; "q3"; "x1"]
         ["atlas"; "ctrl"; "ctrl"; "query"; "query"; "query"; "other"]
         ["s0"; "s1"; "s2"; "s3"; "s4"; "s5"; "s6"].

(** The same cohort with an embedding already attached. *)
Definition adata_embedded : AnnData :=
  mkAnnData (X adata0) (obs adata0) (var adata0)
    (<["X_scVI" := mkArray 1 ((λ _, [f_one]) <$> index (obs adata0))]> ∅) ∅ ∅ ∅ ∅.

(** Two cells, reference first, and the same two cells, query first. *)
Definition adata_rq : AnnData := cohort ["a1"; "q1"] ["atlas"; "query"] ["s0"; "s1"].
Definition adata_qr : AnnData := cohort ["q1"; "a1"] ["query"; "atlas"] ["s1"; "s0"].

Definition neighbourhood_table : AnnData :=
  mkAnnData (mkArray 1 [[f_zero]; [f_zero]; [f_zero]; [f_zero]])
    (mkDataFrame ["0"; "1"; "2"; "3"] ∅) (mkDataFrame ["s"] ∅) ∅ ∅ ∅ ∅ ∅.

Definition make_nhoods (a : AnnData) (prop : float) : pyresult AnnData :=
  match set_obsm "nhoods" (mkArray 4 ((λ _, [f_one; f_zero; f_zero; f_one]) <$> obs_names a)) a with
  | inr a' => inr (set_uns (<["nhood_adata" := UnsAnnData neighbourhood_table]> (uns a')) a')
  | inl e => inl e
  end.

Definition DA_nhoods (a : AnnData) (design : string) : pyresult AnnData :=
  match get_uns_adata a "nhood_adata" with
  | inr nh =>
      let tested :=
        df_set (df_set (obs nh) "logFC" (ColFloat [f_one; f_one; f_zero; f_minus_one]))
               "SpatialFDR" (ColFloat [f_0_01; float_0_1; f_0_01; f_0_01]) in
      inr (set_uns (<["nhood_adata" := UnsAnnData (set_obs tested nh)]> (uns a)) a)
  | inl e => inl e
  end.

Definition train (a : AnnData) (ref_dataset : string) (outdir : option string)
    (batch_key : string) (kwargs : gmap string pyval) : pyresult AnnData :=
  set_obsm "X_scVI" (mkArray 1 ((λ _, [f_zero]) <$> obs_names a)) a.

(** No model on disk. *)
Definition ext : Externals :=
  mkExternals (λ dir_path, inl (FileNotFoundError dir_path)) train
    (λ a _ _, inr a) make_nhoods (λ a _, inr a)
    (λ a _, get_uns_adata a "nhood_adata") DA_nhoods.

(** Two models on disk under [out/], saved with the query cell and with the
    atlas cell of the two-cell cohort. *)
Definition vae_q : SCVI := mkSCVI ["q1"] (inr (mkArray 1 [[f_one]])).
Definition vae_ref : SCVI := mkSCVI ["a1"] (inr (mkArray 1 [[f_two]])).

Definition latent_of (name : string) : list float :=
  if bool_decide (name = "q1") then [f_one] else [f_two].

Definition load (dir_path : string) : pyresult SCVI :=
  if bool_decide (dir_path = "out/model_atlas/") then inr vae_ref
  else if bool_decide (dir_path = "out/model_fit_query2atlas/") then inr vae_q
  else inl (FileNotFoundError dir_path).

Definition ext_persisted : Externals :=
  mkExternals load train (λ a _ _, inr a) make_nhoods (λ a _, inr a)
    (λ a _, get_uns_adata a "nhood_adata") DA_nhoods.

(** Loading fails for a reason that the workflow does not handle. *)
Definition PermissionError (msg : string) : exn :=
  Exn "PermissionError" ["OSError"; "Exception"; "BaseException"] msg.

Definition ext_denied : Externals :=
  mkExternals (λ dir_path, inl (PermissionError dir_path)) train
    (λ a _ _, inr a) make_nhoods (λ a _, inr a)
    (λ a _, get_uns_adata a "nhood_adata") DA_nhoods.

Definition world (a : AnnData) : World := mkWorld [a] [].

End Demo.

(** * Further cases

    A training call that fails, persisted models that do not fit the
    collection, and a cohort without control or query cells. *)
Module Cases.

Definition train_fails (a : AnnData) (ref_dataset : string) (outdir : option string)
    (batch_key : string) (kwargs : gmap string pyval) : pyresult AnnData :=
  inl (ValueError "training failed").

Definition ext_train_fails : Externals :=
  mkExternals (λ dir_path, inl (FileNotFoundError dir_path)) train_fails
    (λ a _ _, inr a) Demo.make_nhoods (λ a _, inr a)
    (λ a _, get_uns_adata a "nhood_adata") Demo.DA_nhoods.




Definition adata_atlas_only : AnnData :=
  Demo.cohort ["a1"; "a2"] ["atlas"; "atlas"] ["s0"; "s1"].

(** A collection without the group column. *)
Definition adata_no_group : AnnData :=
  mkAnnData (mkArray 1 [[Demo.f_zero]])
    (mkDataFrame ["c1"] (<["sample_id" := ColStr ["s1"]]> ∅))
    (mkDataFrame ["g1"] ∅) ∅ ∅ ∅ ∅ ∅.

(** The cohort of [Demo] after the differential test, before the
    harmonized table is made. *)
Definition tested : World :=
  (scArches_milo Demo.ext 0 "atlas" "ctrl" "sample_id" "cell_annotation" float_0_1 None
     false "~ is_query" ∅ (Demo.world Demo.adata0)).1.

End Cases.

(** * Reasoning about runs *)

Section MonadFacts.
Context {A B : Type}.

Lemma bind_run (m : M A) (f : A → M B) w :
  (m ≫= f) w = match m w with (w1, inr a) => f a w1 | (w1, inl e) => (w1, inl e) end.
Proof. reflexivity. Qed.

Lemma bind_inv (m : M A) (f : A → M B) w w' r :
  (m ≫= f) w = (w', r) →
  (∃ e, m w = (w', inl e) ∧ r = inl e) ∨ (∃ a w1, m w = (w1, inr a) ∧ f a w1 = (w', r)).
Proof.
  rewrite bind_run. destruct (m w) as [w1 [e|a]]; intros H.
  - left. exists e. by inversion H.
  - right. by exists a, w1.
Qed.

Lemma bind_inr (m : M A) (f : A → M B) w w' b :
  (m ≫= f) w = (w', inr b) → ∃ a w1, m w = (w1, inr a) ∧ f a w1 = (w', inr b).
Proof. intros [(e & _ & ?)|?]%bind_inv; [done|done]. Qed.

Lemma lift_inr (r : pyresult A) w w' a : lift r w = (w', inr a) → w' = w ∧ r = inr a.
Proof. unfold lift. by intros [= -> ->]. Qed.

End MonadFacts.

Lemma deref_inr l w w' a : deref l w = (w', inr a) → w' = w ∧ heap w !! l = Some a.
Proof. unfold deref. destruct (heap w !! l); by intros [= -> <-]. Qed.

Lemma deref_Some l w a : heap w !! l = Some a → deref l w = (w, inr a).
Proof. unfold deref. by intros ->. Qed.

Lemma store_run l a w : store l a w = (mkWorld (<[l := a]> (heap w)) (trace w), inr ()).
Proof. reflexivity. Qed.

(** Inversion of a successful run, one statement at a time. *)
Ltac inv_step H :=
  let a := fresh "x" in
  let w := fresh "w" in
  let H1 := fresh "Hstep" in
  apply bind_inr in H as (a & w & H1 & H);
  first
    [ apply lift_inr in H1 as [-> H1]
    | apply deref_inr in H1 as [-> H1]
    | rewrite store_run in H1; injection H1 as <- <-
    | idtac ].

(** ** Elementary facts on masks, columns and comparisons *)

Lemma mask_filter_fmap {A B} (f : A → B) m (l : list A) :
  mask_filter m (f <$> l) = f <$> mask_filter m l.
Proof.
  revert l. induction m as [|[] m IH]; intros [|x l]; simpl; try done; by rewrite IH.
Qed.

Lemma Series_values_mask m s : Series_values (Series_mask m s) = mask_filter m (Series_values s).
Proof. destruct s; simpl; by rewrite mask_filter_fmap. Qed.

(** Selecting with the mask [f <$> keys] keeps the positions whose key
    satisfies [f]. *)
Lemma mask_filter_zip {A B} (f : A → bool) (keys : list A) (l : list B) :
  mask_filter (f <$> keys) l = (filter (λ p, f p.1 = true) (zip keys l)).*2.
Proof.
  revert l. induction keys as [|k keys IH]; intros [|x l]; simpl; try done.
  rewrite filter_cons. simpl. destruct (f k) eqn:E.
  - rewrite decide_True by done. simpl. by rewrite IH.
  - rewrite decide_False by (by intros ?). apply IH.
Qed.

Lemma traverse_inr {A B} (f : A → pyresult B) l ys :
  traverse f l = inr ys → Forall2 (λ x y, f x = inr y) l ys.
Proof.
  revert ys. induction l as [|x l IH]; simpl; intros ys H.
  - injection H as <-. constructor.
  - destruct (f x) as [|y] eqn:E; [done|].
    destruct (traverse f l) as [|ys']; [done|]. injection H as <-.
    constructor; [done|]. by apply IH.
Qed.

Lemma SFltb_irrefl (x : float) : SFltb x x = false.
Proof.
  unfold SFltb, SFcompare. destruct x as [s|s| |s m e]; [by destruct s..|done|].
  destruct s; rewrite Z.compare_refl, Pos.compare_cont_refl; reflexivity.
Qed.


(** * The harmonized table *)

Lemma lookup_signif (alpha : float) fdr logFC signif enriched i p f :
  Series_lt_float fdr alpha = inr signif →
  Series_gt_int logFC 0 = inr enriched →
  Series_values fdr !! i = Some p →
  Series_values logFC !! i = Some f →
  ∃ b1 b2, value_lt_float alpha p = inr b1 ∧ value_gt_int 0 f = inr b2 ∧
           (Z.b2z <$> Series_and signif enriched) !! i = Some (Z.b2z (b1 && b2)).
Proof.
  intros Hs%traverse_inr He%traverse_inr Hp Hf.
  destruct (Forall2_lookup_l _ _ _ _ _ Hs Hp) as (b1 & Hb1 & ?).
  destruct (Forall2_lookup_l _ _ _ _ _ He Hf) as (b2 & Hb2 & ?).
  exists b1, b2. split_and!; [done..|].
  unfold Series_and. by rewrite list_lookup_fmap, lookup_zip_with, Hb1, Hb2.
Qed.

Lemma length_signif (alpha : float) fdr logFC signif enriched :
  Series_lt_float fdr alpha = inr signif →
  Series_gt_int logFC 0 = inr enriched →
  length (Z.b2z <$> Series_and signif enriched) = Series_len fdr `min` Series_len logFC.
Proof.
  intros Hs%traverse_inr%Forall2_length He%traverse_inr%Forall2_length.
  unfold Series_and, Series_len. rewrite length_fmap, length_zip_with. lia.
Qed.

(** What a successful [harmonize] leaves at [l]. *)
Lemma harmonize_inv l alpha w w' :
  harmonize l alpha w = (w', inr ()) →
  ∃ a nhood_adata sample_adata fdr logFC signif enriched,
    heap w !! l = Some a ∧
    uns a !! "nhood_adata" = Some (UnsAnnData nhood_adata) ∧
    columns (obs nhood_adata) !! "SpatialFDR" = Some fdr ∧
    columns (obs nhood_adata) !! "logFC" = Some logFC ∧
    Series_lt_float fdr alpha = inr signif ∧
    Series_gt_int logFC 0 = inr enriched ∧
    columns (var sample_adata) =
      <["OOR_signif" := astype_int (Series_and signif enriched)]>
        (<["OOR_score" := logFC]> (columns (obs nhood_adata))) ∧
    index (var sample_adata) = index (obs nhood_adata) ∧
    w' = mkWorld (<[l := set_uns (<["sample_adata" := UnsAnnData sample_adata]> (uns a)) a]>
                    (heap w)) (trace w).
Proof.
  unfold harmonize. intros H.
  inv_step H. inv_step H. inv_step H. inv_step H. inv_step H. inv_step H. inv_step H.
  inv_step H. inv_step H. rewrite store_run in H. injection H as <-.
  unfold get_uns_adata in Hstep0.
  destruct (uns x !! "nhood_adata") as [[n|]|] eqn:Hn; simplify_eq.
  unfold df_get in *. simpl in *.
  destruct (columns (obs x0) !! "logFC") as [c|] eqn:HlogFC; simplify_eq.
  rewrite lookup_insert_ne in Hstep2, Hstep4 by done.
  rewrite HlogFC in Hstep4. simplify_eq.
  destruct (columns (obs x0) !! "SpatialFDR") as [c|] eqn:Hfdr; simplify_eq.
  unfold set_varm in Hstep7. case_bool_decide; simplify_eq.
  eexists x, x0, _, x2, x4, x3, x5. split_and!; [..|reflexivity]; done.
Qed.

(** C1. In the harmonized table of a run that returns, [OOR_signif] is 1 on
    a neighbourhood exactly when its [SpatialFDR] is strictly below
    [signif_alpha] and its [logFC] is strictly above 0, and 0 otherwise; a
    p-value equal to the threshold gives 0, and so does a zero log
    fold-change. On float columns the two comparisons are those of IEEE
    754 binary64, [SpatialFDR < signif_alpha] and [0.0 < logFC]; an integer
    [logFC] is compared with 0 as an integer. *)
Theorem OOR_signif_iff ext adata er dr sample_col annotation_col alpha outdir design kwargs
    w w' l :
  scArches_milo ext adata er dr sample_col annotation_col alpha outdir true design kwargs w
    = (w', inr l) →
  ∃ a sample_adata fdr logFC signif,
    heap w' !! l = Some a ∧
    uns a !! "sample_adata" = Some (UnsAnnData sample_adata) ∧
    columns (var sample_adata) !! "SpatialFDR" = Some fdr ∧
    columns (var sample_adata) !! "logFC" = Some logFC ∧
    columns (var sample_adata) !! "OOR_signif" = Some (ColInt signif) ∧
    length signif = Series_len fdr `min` Series_len logFC ∧
    ∀ i p f,
      Series_values fdr !! i = Some p →
      Series_values logFC !! i = Some f →
      (signif !! i = Some 1%Z ∨ signif !! i = Some 0%Z) ∧
      (signif !! i = Some 1%Z ↔
         value_lt_float alpha p = inr true ∧ value_gt_int 0 f = inr true) ∧
      (∀ x y, p = VFloat x → f = VFloat y →
         (signif !! i = Some 1%Z ↔ SFltb x alpha = true ∧ SFltb (S754_zero false) y = true)) ∧
      (∀ x z, p = VFloat x → f = VInt z →
         (signif !! i = Some 1%Z ↔ SFltb x alpha = true ∧ (0 < z)%Z)) ∧
      (p = VFloat alpha → signif !! i = Some 0%Z) ∧
      (∀ s, f = VFloat (S754_zero s) → signif !! i = Some 0%Z).
Proof.
  unfold scArches_milo. intros H.
  inv_step H. inv_step H. inv_step H. inv_step H. inv_step H. inv_step H.
  injection H as <- <-. destruct x4.
  apply harmonize_inv in Hstep4
    as (a & nh & sa & fdr & logFC & sb & eb & Ha & Hnh & Hfdr & HlogFC & Hsb & Heb & Hcols & _ & ->).
  eexists _, sa, fdr, logFC, _. simpl. split_and!.
  - apply list_lookup_insert_eq. by eapply lookup_lt_Some.
  - simpl. apply lookup_insert_eq.
  - rewrite Hcols. by rewrite !lookup_insert_ne.
  - rewrite Hcols. by rewrite !lookup_insert_ne.
  - rewrite Hcols. by rewrite lookup_insert_eq.
  - by eapply length_signif.
  - intros i p f Hp Hf.
    destruct (lookup_signif _ _ _ _ _ _ _ _ Hsb Heb Hp Hf) as (b1 & b2 & H1 & H2 & ->).
    rewrite H1, H2. split_and!.
    + destruct b1, b2; auto.
    + destruct b1, b2; simpl; split; try done; intros [??]; congruence.
    + intros fx fy -> ->. simpl in H1, H2. injection H1 as <-. injection H2 as <-.
      change (float_of_int 0) with (S754_zero false).
      destruct (SFltb fx alpha), (SFltb (S754_zero false) fy); simpl; split; try done;
        intros [??]; congruence.
    + intros fx z -> ->. simpl in H1, H2. injection H1 as <-. injection H2 as <-.
      rewrite <-Z.ltb_lt.
      destruct (SFltb fx alpha), (0 <? z)%Z; simpl; split; try done;
        intros [??]; congruence.
    + intros ->. simpl in H1. rewrite SFltb_irrefl in H1. by simplify_eq.
    + intros s ->. simpl in H2. simplify_eq. by rewrite andb_false_r.
Qed.

Lemma OOR_signif_iff_witness :
  let w := Demo.world Demo.adata0 in
  let run := scArches_milo Demo.ext 0 "atlas" "ctrl" "sample_id" "cell_annotation"
               float_0_1 None true "~ is_query" ∅ w in
  (run.2 = inr 2 ∧
   ∃ a sample_adata,
     heap run.1 !! 2 = Some a ∧
     uns a !! "sample_adata" = Some (UnsAnnData sample_adata) ∧
     columns (var sample_adata) !! "SpatialFDR" =
       Some (ColFloat [Demo.f_0_01; float_0_1; Demo.f_0_01; Demo.f_0_01]) ∧
     columns (var sample_adata) !! "logFC" =
       Some (ColFloat [Demo.f_one; Demo.f_one; Demo.f_zero; Demo.f_minus_one]) ∧
     columns (var sample_adata) !! "OOR_signif" = Some (ColInt [1; 0; 0; 0]%Z)) ∧
  ∃ a sample_adata fdr logFC signif,
    heap run.1 !! 2 = Some a ∧
    uns a !! "sample_adata" = Some (UnsAnnData sample_adata) ∧
    columns (var sample_adata) !! "SpatialFDR" = Some fdr ∧
    columns (var sample_adata) !! "logFC" = Some logFC ∧
    columns (var sample_adata) !! "OOR_signif" = Some (ColInt signif) ∧
    length signif = Series_len fdr `min` Series_len logFC ∧
    ∀ i p f,
      Series_values fdr !! i = Some p →
      Series_values logFC !! i = Some f →
      (signif !! i = Some 1%Z ∨ signif !! i = Some 0%Z) ∧
      (signif !! i = Some 1%Z ↔
         value_lt_float float_0_1 p = inr true ∧ value_gt_int 0 f = inr true) ∧
      (∀ x y, p = VFloat x → f = VFloat y →
         (signif !! i = Some 1%Z ↔
            SFltb x float_0_1 = true ∧ SFltb (S754_zero false) y = true)) ∧
      (∀ x z, p = VFloat x → f = VInt z →
         (signif !! i = Some 1%Z ↔ SFltb x float_0_1 = true ∧ (0 < z)%Z)) ∧
      (p = VFloat float_0_1 → signif !! i = Some 0%Z) ∧
      (∀ s, f = VFloat (S754_zero s) → signif !! i = Some 0%Z).
Proof.
  intros w run. split.
  - split; [vm_compute; reflexivity|]. do 2 eexists. vm_compute. done.
  - apply (OOR_signif_iff Demo.ext 0 "atlas" "ctrl" "sample_id" "cell_annotation"
             float_0_1 None "~ is_query" ∅ w run.1 2).
    vm_compute. reflexivity.
Defined.

(** * Traces *)

Section Emits.
Context {A B : Type} (P : event → Prop).

Lemma emits_ret (a : A) : emits P (mret a).
Proof. intros w w' r [= <- <-]. exists []. by rewrite app_nil_r. Qed.

Lemma emits_raise (e : exn) : emits P (raise e : M A).
Proof. intros w w' r [= <- <-]. exists []. by rewrite app_nil_r. Qed.

Lemma emits_lift (x : pyresult A) : emits P (lift x).
Proof. intros w w' r [= <- <-]. exists []. by rewrite app_nil_r. Qed.

Lemma emits_bind (m : M A) (f : A → M B) :
  emits P m → (∀ a, emits P (f a)) → emits P (m ≫= f).
Proof.
  intros Hm Hf w w' r [(e & H & ->)|(a & w1 & H & Hk)]%bind_inv.
  - by apply Hm in H.
  - apply Hm in H as (evs1 & E1 & F1). apply Hf in Hk as (evs2 & E2 & F2).
    exists (evs1 ++ evs2). rewrite E2, E1, (assoc (++)). split; [done|].
    by apply Forall_app.
Qed.

Lemma emits_try_except (body handler : M A) catches :
  emits P body → emits P handler → emits P (try_except body catches handler).
Proof.
  intros Hb Hh w w' r. unfold try_except.
  destruct (body w) as [w1 [e|a]] eqn:E.
  - destruct (catches e).
    + intros Hk. apply Hb in E as (evs1 & E1 & F1). apply Hh in Hk as (evs2 & E2 & F2).
      exists (evs1 ++ evs2). rewrite E2, E1, (assoc (++)). split; [done|].
      by apply Forall_app.
    + intros [= <- <-]. by apply Hb in E.
  - intros [= <- <-]. by apply Hb in E.
Qed.

End Emits.

Lemma emits_deref P l : emits P (deref l).
Proof.
  intros w w' r. unfold deref.
  destruct (heap w !! l); intros [= <- <-]; exists []; by rewrite app_nil_r.
Qed.

Lemma emits_alloc P a : emits P (alloc a).
Proof. intros w w' r [= <- <-]. exists []. by rewrite app_nil_r. Qed.

Lemma emits_store P l a : emits P (store l a).
Proof. intros w w' r [= <- <-]. exists []. by rewrite app_nil_r. Qed.

Lemma emits_emit (P : event → Prop) ev : P ev → emits P (emit ev).
Proof. intros HP w w' r [= <- <-]. exists [ev]. split; [done|]. by constructor. Qed.

Lemma emits_call_inplace (P : event → Prop) l ev f :
  (∀ a, P (ev a)) → emits P (call_inplace l ev f).
Proof.
  intros HP. unfold call_inplace.
  apply emits_bind; [apply emits_deref|intros a].
  apply emits_bind; [by apply emits_emit|intros _].
  apply emits_bind; [apply emits_lift|intros a']. apply emits_store.
Qed.

(** Stages whose events satisfy [P] whatever the state. *)
Ltac emits_step :=
  first
    [ apply emits_ret | apply emits_raise | apply emits_lift | apply emits_deref
    | apply emits_alloc | apply emits_store
    | apply emits_call_inplace; intros ?
    | apply emits_emit
    | apply emits_try_except
    | apply emits_bind; [|intros ?] ].

Ltac solve_emits := repeat (emits_step; simpl; try done).

Section StageTraces.
Context (ext : Externals) (P : event → Prop).

Lemma emits_select_datasets adata er dr : emits P (select_datasets adata er dr).
Proof. unfold select_datasets. solve_emits. Qed.

Lemma emits_drop_embedding_reference adata er dr :
  emits P (drop_embedding_reference adata er dr).
Proof. unfold drop_embedding_reference. case_bool_decide; solve_emits. Qed.

Lemma emits_harmonize adata alpha : emits P (harmonize adata alpha).
Proof. unfold harmonize. solve_emits. Qed.

Lemma emits_embed adata er outdir kwargs :
  (∀ ev, is_load ev = true ∨ is_train ev = true → P ev) →
  emits P (embed ext adata er outdir kwargs).
Proof.
  intros HP.
  assert (∀ od, emits P (train_embedding ext adata er od kwargs)) as Htrain.
  { intros od. unfold train_embedding.
    destruct (repeated_keyword kwargs); solve_emits. apply HP. auto. }
  unfold embed, load_persisted_embedding, load_model.
  apply emits_bind; [apply emits_deref|intros a].
  case_bool_decide; [apply emits_ret|].
  destruct outdir; [|apply Htrain].
  apply emits_try_except; [|apply Htrain]. solve_emits; apply HP; auto.
Qed.

Lemma emits_n_samples a group sample_col : emits P (n_samples a group sample_col).
Proof. unfold n_samples. solve_emits. Qed.

Lemma emits_make_knn_graph adata dr sample_col :
  (∀ ev, is_neighbors ev = true → P ev) →
  emits P (make_knn_graph ext adata dr sample_col).
Proof.
  intros HP. unfold make_knn_graph.
  apply emits_bind; [apply emits_deref|intros a].
  apply emits_bind; [apply emits_n_samples|intros n1].
  apply emits_bind; [apply emits_n_samples|intros n2].
  apply emits_call_inplace. intros a'. by apply HP.
Qed.

End StageTraces.

(** ** Runs of the primitives *)

Lemma deref_inv l w w' r :
  deref l w = (w', r) →
  w' = w ∧ ((∃ a, heap w !! l = Some a ∧ r = inr a) ∨ (heap w !! l = None ∧ ∃ e, r = inl e)).
Proof.
  unfold deref. destruct (heap w !! l) as [a|]; intros [= <- <-]; split; eauto.
Qed.

Lemma lift_inv {A} (x : pyresult A) w w' r : lift x w = (w', r) → w' = w ∧ r = x.
Proof. by intros [= <- <-]. Qed.

Lemma call_inplace_run l ev f w a :
  heap w !! l = Some a →
  call_inplace l ev f w =
    match f a with
    | inl e => (mkWorld (heap w) (trace w ++ [ev a]), inl e)
    | inr a' => (mkWorld (<[l := a']> (heap w)) (trace w ++ [ev a]), inr ())
    end.
Proof.
  intros Ha. unfold call_inplace. rewrite bind_run, (deref_Some _ _ _ Ha).
  rewrite bind_run. simpl. rewrite bind_run. unfold lift. by destruct (f a).
Qed.

Lemma lookup_store l a (h : list AnnData) : l < length h → <[l := a]> h !! l = Some a.
Proof. apply list_lookup_insert_eq. Qed.

(** The last two statements of [run_milo]: the covariate is set from the
    group labels of the object that the test is then given. *)
Lemma emits_assign_and_test ext l query_group design :
  query_group = "query" →
  emits is_query_ok
    (a ← deref l;
     grp ← lift (df_get (obs a) "dataset_group");
     store l (set_obs (df_set (obs a) "is_query" (ColBool (Series_eq_str grp query_group))) a);;
     call_inplace l (λ a, EvDANhoods a design) (λ a, milopy_DA_nhoods ext a design)).
Proof.
  intros -> w w' r H.
  apply bind_inv in H as [(e & H & ->)|(a & w1 & H1 & H)].
  { apply deref_inv in H as [-> _]. exists []. by rewrite app_nil_r. }
  apply deref_inr in H1 as [-> Ha].
  apply bind_inv in H as [(e & H & ->)|(grp & w1 & H1 & H)].
  { apply lift_inv in H as [-> _]. exists []. by rewrite app_nil_r. }
  apply lift_inr in H1 as [-> Hgrp].
  rewrite bind_run, store_run in H.
  erewrite call_inplace_run in H
    by (simpl; apply lookup_store; by eapply lookup_lt_Some).
  eexists [_]. split.
  - destruct (milopy_DA_nhoods _ _ _); by injection H as <- <-.
  - constructor; [|done]. exists grp. unfold df_get in Hgrp.
    destruct (columns (obs a) !! "dataset_group") eqn:E; simplify_eq. simpl.
    split; [by rewrite lookup_insert_ne|by rewrite lookup_insert_eq].
Qed.

Section MiloTraces.
Context (ext : Externals).

Lemma emits_run_milo P l query_group reference_group sample_col annotation_col design :
  (∀ ev, is_milo ev = true → P ev) →
  emits P (run_milo ext l query_group reference_group sample_col annotation_col design).
Proof. intros HP. unfold run_milo. solve_emits; by apply HP. Qed.

Lemma emits_run_milo_is_query l reference_group sample_col annotation_col design :
  emits is_query_ok (run_milo ext l "query" reference_group sample_col annotation_col design).
Proof.
  unfold run_milo.
  do 7 (apply emits_bind; [solve_emits|intros ?]).
  by apply emits_assign_and_test.
Qed.

(** Everything after the embedding step neither loads nor trains a model. *)
Lemma emits_after_embedding P l er dr sample_col annotation_col alpha harmonize_output design :
  (∀ ev, is_neighbors ev = true → P ev) →
  (∀ ev, is_milo ev = true → P ev) →
  emits P (after_embedding ext l er dr sample_col annotation_col alpha harmonize_output design).
Proof.
  intros HN HM. unfold after_embedding.
  apply emits_bind; [apply emits_drop_embedding_reference|intros l'].
  apply emits_bind; [by apply emits_make_knn_graph|intros _].
  apply emits_bind; [by apply emits_run_milo|intros _].
  apply emits_bind; [|intros _; apply emits_ret].
  destruct harmonize_output; [apply emits_harmonize|apply emits_ret].
Qed.

Lemma scArches_milo_unfold adata er dr sample_col annotation_col alpha outdir
    harmonize_output design kwargs :
  scArches_milo ext adata er dr sample_col annotation_col alpha outdir harmonize_output
    design kwargs =
  (l ← select_datasets adata er dr;
   embed ext l er outdir kwargs;;
   after_embedding ext l er dr sample_col annotation_col alpha harmonize_output design).
Proof. reflexivity. Qed.

End MiloTraces.

(** * The neighbour count *)

Lemma value_eq_str_true x v : value_eq_str x v = true ↔ v = VStr x.
Proof.
  destruct v; simpl; try (split; [done|by intros [=]]).
  rewrite bool_decide_eq_true. split; [by intros ->|by intros [=]].
Qed.

Lemma unique_keys_spec seen l :
  NoDup (hash_key <$> unique_keys seen l) ∧
  ∀ k, k ∈ hash_key <$> unique_keys seen l ↔ k ∈ hash_key <$> l ∧ k ∉ seen.
Proof.
  revert seen. induction l as [|v l IH]; intros seen; simpl.
  - split; [constructor|]. intros k. rewrite elem_of_nil. tauto.
  - case_bool_decide as Hv.
    + destruct (IH seen) as [Hnd Hel]. split; [done|].
      intros k. rewrite Hel, elem_of_cons. split; [tauto|].
      intros [[->|?] ?]; [done|tauto].
    + destruct (IH (hash_key v :: seen)) as [Hnd Hel]. split.
      * simpl. constructor; [|done]. rewrite Hel, elem_of_cons.
        intros [_ Hk]. apply Hk. by left.
      * intros k. simpl. rewrite !elem_of_cons, Hel, elem_of_cons. clear IH Hel Hnd.
        destruct (decide (k = hash_key v)) as [->|Hne]; [tauto|].
        split; [intros [?|[? ?]]; [done|tauto]|intros [[?|?] ?]; [done|tauto]].
Qed.

(** [unique()] has as many entries as there are distinct identifiers. *)
Lemma unique_length l : length (unique_keys [] l) = n_distinct l.
Proof.
  unfold n_distinct. destruct (unique_keys_spec [] l) as [Hnd Hel].
  rewrite <-(length_fmap hash_key). apply Permutation_length, NoDup_Permutation.
  - done.
  - apply NoDup_remove_dups.
  - intros k. rewrite Hel, elem_of_remove_dups, elem_of_nil. tauto.
Qed.

Lemma n_samples_inv a group sample_col w w' r :
  n_samples a group sample_col w = (w', r) →
  w' = w ∧ ∀ n, r = inr n → n = Z.of_nat (n_distinct (group_samples a sample_col group)).
Proof.
  unfold n_samples, group_samples, df_get. intros H.
  apply bind_inv in H as [(e & [-> _]%lift_inv & ->)|(grp & w1 & [-> Hgrp]%lift_inr & H)];
    [done|].
  destruct (columns (obs a) !! "dataset_group") as [g|]; simplify_eq.
  simpl in H. rewrite lookup_fmap in H.
  apply bind_inv in H as [(e & [-> _]%lift_inv & ->)|(s & w1 & [-> Hs]%lift_inr & H)];
    [done|].
  destruct (columns (obs a) !! sample_col) as [s0|]; simplify_eq.
  injection H as <- <-. split; [done|]. intros n [= <-]. f_equal.
  simpl in Hs. injection Hs as <-. unfold Series_unique, Series_eq_str.
  rewrite Series_values_mask, mask_filter_zip, unique_length. do 2 f_equal.
  apply list_filter_iff. intros [v ?]. apply value_eq_str_true.
Qed.

Section KnnGraph.
Context (ext : Externals).

Lemma make_knn_graph_inv l dr sample_col w w' r :
  make_knn_graph ext l dr sample_col w = (w', r) →
  (w' = w ∧ ∃ e, r = inl e) ∨
  (∃ a, heap w !! l = Some a ∧ length (heap w') = length (heap w) ∧
        trace w' = trace w ++
          [EvNeighbors a "X_scVI"
             (5 * (Z.of_nat (n_distinct (group_samples a sample_col dr))
                   + Z.of_nat (n_distinct (group_samples a sample_col "query"))))]).
Proof.
  unfold make_knn_graph. intros H.
  apply bind_inv in H as [(e & [-> _]%deref_inv & ->)|(a & w1 & [-> Ha]%deref_inr & H)];
    [left; eauto|].
  apply bind_inv in H as [(e & [-> _]%n_samples_inv & ->)|(n1 & w1 & [-> H1]%n_samples_inv & H)];
    [left; eauto|].
  apply bind_inv in H as [(e & [-> _]%n_samples_inv & ->)|(n2 & w1 & [-> H2]%n_samples_inv & H)];
    [left; eauto|].
  rewrite (call_inplace_run _ _ _ _ _ Ha) in H.
  rewrite (H1 _ eq_refl), (H2 _ eq_refl) in H. right. exists a.
  replace (5 * _)%Z with
    ((Z.of_nat (n_distinct (group_samples a sample_col dr))
      + Z.of_nat (n_distinct (group_samples a sample_col "query"))) * 5)%Z by lia.
  destruct (sc_pp_neighbors _ _ _ _); injection H as <- <-; simpl;
    by rewrite ?length_insert.
Qed.

Lemma emits_make_knn_graph_ok l dr sample_col :
  emits (neighbors_ok dr sample_col) (make_knn_graph ext l dr sample_col).
Proof.
  intros w w' r [[-> _]|(a & _ & _ & E)]%make_knn_graph_inv.
  - exists []. by rewrite app_nil_r.
  - eexists [_]. split; [done|]. by repeat constructor.
Qed.

Lemma emits_neighbors_ok adata er dr sample_col annotation_col alpha outdir harmonize_output
    design kwargs :
  emits (neighbors_ok dr sample_col)
    (scArches_milo ext adata er dr sample_col annotation_col alpha outdir harmonize_output
       design kwargs).
Proof.
  unfold scArches_milo.
  apply emits_bind; [apply emits_select_datasets|intros l].
  apply emits_bind; [apply emits_embed; by intros [] [|]|intros _].
  apply emits_bind; [apply emits_drop_embedding_reference|intros l'].
  apply emits_bind; [apply emits_make_knn_graph_ok|intros _].
  apply emits_bind; [apply emits_run_milo; by intros []|intros _].
  apply emits_bind; [|intros _; apply emits_ret].
  destruct harmonize_output; [apply emits_harmonize|apply emits_ret].
Qed.

(** A run that returns has asked for the graph. *)
Lemma neighbors_called adata er dr sample_col annotation_col alpha outdir harmonize_output
    design kwargs w w' l :
  scArches_milo ext adata er dr sample_col annotation_col alpha outdir harmonize_output
    design kwargs w = (w', inr l) →
  ∃ evs1 a k evs2, trace w' = trace w ++ evs1 ++ EvNeighbors a "X_scVI" k :: evs2.
Proof.
  unfold scArches_milo. intros H.
  apply bind_inr in H as (l1 & w1 & H1 & H).
  apply (emits_select_datasets (λ _, True)) in H1 as (e1 & E1 & _).
  apply bind_inr in H as (? & w2 & H2 & H).
  apply (emits_embed ext (λ _, True)) in H2 as (e2 & E2 & _); [|done].
  apply bind_inr in H as (l2 & w3 & H3 & H).
  apply (emits_drop_embedding_reference (λ _, True)) in H3 as (e3 & E3 & _).
  apply bind_inr in H as (? & w4 & H4 & H).
  apply make_knn_graph_inv in H4 as [[_ [? [=]]]|(a & _ & _ & E4)].
  apply bind_inr in H as (? & w5 & H5 & H).
  apply (emits_run_milo ext (λ _, True)) in H5 as (e5 & E5 & _); [|done].
  apply bind_inr in H as (? & w6 & H6 & H). injection H as <- <-.
  assert (∃ e6, trace w6 = trace w5 ++ e6) as [e6 E6].
  { destruct harmonize_output.
    - apply (emits_harmonize (λ _, True)) in H6 as (e6 & E6 & _). eauto.
    - injection H6 as <-. exists []. by rewrite app_nil_r. }
  eexists (e1 ++ e2 ++ e3), a, _, (e5 ++ e6).
  rewrite E6, E5, E4, E3, E2, E1. by rewrite <-!(assoc (++)).
Qed.

End KnnGraph.



(** * The caller's objects *)

Section Frames.
Context {A B : Type} (n : nat).

Lemma frames_ret (R : A → Prop) (a : A) : R a → frames n R (mret a).
Proof. intros HR w w' r [= <- <-] Hn. split_and!; [done..|]. by intros ? [= <-]. Qed.

Lemma frames_raise (R : A → Prop) (e : exn) : frames n R (raise e).
Proof. intros w w' r [= <- <-] Hn. by split_and!. Qed.

Lemma frames_lift (x : pyresult A) : frames n (λ _, True) (lift x).
Proof. intros w w' r [= <- <-] Hn. by split_and!. Qed.

Lemma frames_bind (R : A → Prop) (R' : B → Prop) (m : M A) (f : A → M B) :
  frames n R m → (∀ a, R a → frames n R' (f a)) → frames n R' (m ≫= f).
Proof.
  intros Hm Hf w w' r [(e & H & ->)|(a & w1 & H & Hk)]%bind_inv Hn.
  - destruct (Hm _ _ _ H Hn) as (? & ? & _). by split_and!.
  - destruct (Hm _ _ _ H Hn) as (E1 & Hn1 & HR).
    destruct (Hf a (HR _ eq_refl) _ _ _ Hk Hn1) as (E2 & ? & ?).
    split_and!; [by rewrite E2|done..].
Qed.

Lemma frames_try_except (R : A → Prop) (body handler : M A) catches :
  frames n R body → frames n R handler → frames n R (try_except body catches handler).
Proof.
  intros Hb Hh w w' r. unfold try_except.
  destruct (body w) as [w1 [e|a]] eqn:E; intros H Hn;
    destruct (Hb _ _ _ E Hn) as (E1 & Hn1 & HR).
  - destruct (catches e).
    + destruct (Hh _ _ _ H Hn1) as (E2 & ? & ?). split_and!; [by rewrite E2|done..].
    + injection H as <- <-. by split_and!.
  - injection H as <- <-. by split_and!.
Qed.

End Frames.

Section FramePrimitives.
Context (n : nat).

Lemma frames_deref l : frames n (λ _, True) (deref l).
Proof. intros w w' r [-> _]%deref_inv Hn. by split_and!. Qed.

Lemma frames_alloc a : frames n (λ l, n ≤ l) (alloc a).
Proof.
  intros w w' r [= <- <-] Hn. simpl. split_and!.
  - by rewrite take_app_le.
  - rewrite length_app. lia.
  - by intros ? [= <-].
Qed.

Lemma frames_store l a : n ≤ l → frames n (λ _, True) (store l a).
Proof.
  intros Hl w w' r [= <- <-] Hn. simpl. split_and!; [|by rewrite length_insert|done].
  by apply take_insert_ge.
Qed.

Lemma frames_emit ev : frames n (λ _, True) (emit ev).
Proof. intros w w' r [= <- <-] Hn. by split_and!. Qed.

Lemma frames_call_inplace l ev f : n ≤ l → frames n (λ _, True) (call_inplace l ev f).
Proof.
  intros Hl. unfold call_inplace.
  eapply frames_bind; [apply frames_deref|intros a _].
  eapply frames_bind; [apply frames_emit|intros _ _].
  eapply frames_bind; [apply frames_lift|intros a' _]. by apply frames_store.
Qed.

End FramePrimitives.

Ltac frames_step :=
  first
    [ apply (frames_ret _ (λ _, True)) | apply frames_ret | apply frames_raise
    | apply frames_lift | apply frames_deref
    | apply frames_alloc | apply frames_store | apply frames_emit
    | apply frames_call_inplace
    | apply frames_try_except
    | eapply frames_bind; [|intros ? ?] ].

Ltac solve_frames := repeat (frames_step; simpl; try done).

Section StageFrames.
Context (ext : Externals) (n : nat).

Lemma frames_select_datasets adata er dr : frames n (λ l, n ≤ l) (select_datasets adata er dr).
Proof. unfold select_datasets. solve_frames. Qed.

Lemma frames_embed l er outdir kwargs :
  n ≤ l → frames n (λ _, True) (embed ext l er outdir kwargs).
Proof.
  intros Hl.
  assert (∀ od, frames n (λ _, True) (train_embedding ext l er od kwargs)) as Htrain.
  { intros od. unfold train_embedding. destruct (repeated_keyword kwargs); solve_frames. }
  unfold embed, load_persisted_embedding, load_model.
  eapply frames_bind; [apply frames_deref|intros a _].
  case_bool_decide; [by apply frames_ret|].
  destruct outdir; [|apply Htrain].
  apply frames_try_except; [|apply Htrain]. solve_frames.
Qed.

Lemma frames_drop_embedding_reference l er dr :
  n ≤ l → frames n (λ l', n ≤ l') (drop_embedding_reference l er dr).
Proof. intros Hl. unfold drop_embedding_reference. case_bool_decide; solve_frames. Qed.

Lemma frames_make_knn_graph l dr sample_col :
  n ≤ l → frames n (λ _, True) (make_knn_graph ext l dr sample_col).
Proof. intros Hl. unfold make_knn_graph, n_samples. solve_frames. Qed.

Lemma frames_run_milo l query_group reference_group sample_col annotation_col design :
  n ≤ l →
  frames n (λ _, True)
    (run_milo ext l query_group reference_group sample_col annotation_col design).
Proof. intros Hl. unfold run_milo. solve_frames. Qed.

Lemma frames_harmonize l alpha : n ≤ l → frames n (λ _, True) (harmonize l alpha).
Proof. intros Hl. unfold harmonize. solve_frames. Qed.

Lemma frames_scArches_milo adata er dr sample_col annotation_col alpha outdir
    harmonize_output design kwargs :
  frames n (λ l, n ≤ l)
    (scArches_milo ext adata er dr sample_col annotation_col alpha outdir harmonize_output
       design kwargs).
Proof.
  unfold scArches_milo.
  eapply frames_bind; [apply frames_select_datasets|intros l Hl].
  eapply frames_bind; [by apply frames_embed|intros _ _].
  eapply frames_bind; [by apply frames_drop_embedding_reference|intros l' Hl'].
  eapply frames_bind; [by apply frames_make_knn_graph|intros _ _].
  eapply frames_bind; [by apply frames_run_milo|intros _ _].
  eapply frames_bind; [|intros _ _; by apply frames_ret].
  destruct harmonize_output; [by apply frames_harmonize|by apply (frames_ret _ (λ _, True))].
Qed.

End StageFrames.

(** Whatever the outcome, the objects that existed before the call are as
    they were. *)
Lemma scArches_milo_heap ext adata er dr sample_col annotation_col alpha outdir
    harmonize_output design kwargs w w' r :
  scArches_milo ext adata er dr sample_col annotation_col alpha outdir harmonize_output
    design kwargs w = (w', r) →
  (∀ l, l < length (heap w) → heap w' !! l = heap w !! l) ∧
  (∀ l, r = inr l → length (heap w) ≤ l).
Proof.
  intros H.
  destruct (frames_scArches_milo ext (length (heap w)) _ _ _ _ _ _ _ _ _ _ _ _ _ H
              (Nat.le_refl _)) as (E & _ & Hret).
  split; [|done]. intros l Hl.
  rewrite <-(lookup_take_lt _ (length (heap w))) by done.
  rewrite E, lookup_take_lt by done. done.
Qed.

Lemma caller_frame ext adata er dr sample_col annotation_col alpha outdir
    harmonize_output design kwargs w w' r a0 :
  heap w !! adata = Some a0 →
  scArches_milo ext adata er dr sample_col annotation_col alpha outdir harmonize_output
    design kwargs w = (w', r) →
  heap w' !! adata = Some a0.
Proof.
  intros Ha H. apply scArches_milo_heap in H as [Hold _].
  rewrite Hold; [done|]. by eapply lookup_lt_Some.
Qed.

(** C9. The collection that the caller passes is never written to: whatever
    the outcome of the workflow, the caller's object (and every other object
    that existed before the call) is what it was, and the collection that
    is returned is another object, made by the copy of line 79 or later. *)
Theorem caller_collection_unchanged ext adata er dr sample_col annotation_col alpha outdir
    harmonize_output design kwargs w w' r a0 :
  heap w !! adata = Some a0 →
  scArches_milo ext adata er dr sample_col annotation_col alpha outdir harmonize_output
    design kwargs w = (w', r) →
  heap w' !! adata = Some a0 ∧
  (∀ l, l < length (heap w) → heap w' !! l = heap w !! l) ∧
  (∀ l, r = inr l → l ≠ adata ∧ length (heap w) ≤ l).
Proof.
  intros Ha H. apply scArches_milo_heap in H as [Hold Hnew].
  pose proof (lookup_lt_Some _ _ _ Ha) as Hlt.
  split_and!; [by rewrite Hold|done|].
  intros l Hl. specialize (Hnew l Hl). split; lia.
Qed.

Lemma caller_collection_unchanged_witness :
  let run := scArches_milo Demo.ext 0 "atlas" "ctrl" "sample_id" "cell_annotation"
               float_0_1 None true "~ is_query" ∅ (Demo.world Demo.adata0) in
  heap run.1 !! 0 = Some Demo.adata0 ∧
  (∀ l, l < length (heap (Demo.world Demo.adata0)) →
        heap run.1 !! l = heap (Demo.world Demo.adata0) !! l) ∧
  (∀ l, run.2 = inr l → l ≠ 0 ∧ length (heap (Demo.world Demo.adata0)) ≤ l).
Proof.
  intros run.
  apply (caller_collection_unchanged Demo.ext 0 "atlas" "ctrl" "sample_id" "cell_annotation"
           float_0_1 None true "~ is_query" ∅ (Demo.world Demo.adata0) run.1 run.2).
  - reflexivity.
  - vm_compute. reflexivity.
Defined.

(** * The embedding step *)

Lemma select_datasets_run adata er dr w a grp :
  heap w !! adata = Some a →
  columns (obs a) !! "dataset_group" = Some grp →
  select_datasets adata er dr w =
    (mkWorld (heap w ++ [subset_obs (Series_isin grp [er; dr; "query"]) a]) (trace w),
     inr (length (heap w))).
Proof.
  intros Ha Hgrp. unfold select_datasets.
  rewrite bind_run, (deref_Some _ _ _ Ha), bind_run. unfold lift, df_get. by rewrite Hgrp.
Qed.

Lemma select_datasets_fail adata er dr w a :
  heap w !! adata = Some a →
  columns (obs a) !! "dataset_group" = None →
  select_datasets adata er dr w = (w, inl (KeyError "dataset_group")).
Proof.
  intros Ha Hgrp. unfold select_datasets.
  rewrite bind_run, (deref_Some _ _ _ Ha), bind_run. unfold lift, df_get. by rewrite Hgrp.
Qed.

Lemma lookup_alloc (h : list AnnData) a : (h ++ [a]) !! length h = Some a.
Proof. by apply list_lookup_middle. Qed.




Section Embedding.
Context (ext : Externals).

Lemma embed_skip l er outdir kwargs w a :
  heap w !! l = Some a → is_Some (obsm a !! "X_scVI") →
  embed ext l er outdir kwargs w = (w, inr ()).
Proof.
  intros Ha HX. unfold embed. rewrite bind_run, (deref_Some _ _ _ Ha).
  by rewrite bool_decide_eq_true_2.
Qed.

Lemma embed_train l er kwargs w a :
  heap w !! l = Some a → obsm a !! "X_scVI" = None →
  embed ext l er None kwargs w = train_embedding ext l er None kwargs w.
Proof.
  intros Ha HX. unfold embed. rewrite bind_run, (deref_Some _ _ _ Ha).
  rewrite bool_decide_eq_false_2; [done|]. rewrite HX. by intros [? [=]].
Qed.

Lemma embed_try l er d kwargs w a :
  heap w !! l = Some a → obsm a !! "X_scVI" = None →
  embed ext l er (Some d) kwargs w =
    try_except (load_persisted_embedding ext l er d) load_failure
      (train_embedding ext l er (Some d) kwargs) w.
Proof.
  intros Ha HX. unfold embed. rewrite bind_run, (deref_Some _ _ _ Ha).
  rewrite bool_decide_eq_false_2; [done|]. rewrite HX. by intros [? [=]].
Qed.

(** A call of [embedding_scArches] on a live object, with no keyword given
    twice, is one training event. *)
Lemma train_embedding_inv l er outdir kwargs w w' r a :
  repeated_keyword kwargs = false →
  heap w !! l = Some a →
  train_embedding ext l er outdir kwargs w = (w', r) →
  trace w' = trace w ++ [EvTrain a er outdir "sample_id" kwargs] ∧
  length (heap w') = length (heap w).
Proof.
  intros Hkw Ha. unfold train_embedding. rewrite Hkw, (call_inplace_run _ _ _ _ _ Ha).
  destruct (embedding_scArches _ _ _ _ _ _); intros [= <- <-]; simpl;
    by rewrite ?length_insert.
Qed.

(** With a keyword given twice the call raises and nothing has happened. *)
Lemma train_embedding_repeated l er outdir kwargs w :
  repeated_keyword kwargs = true →
  train_embedding ext l er outdir kwargs w =
    (w, inl (TypeError "embedding_scArches() got multiple values for keyword argument")).
Proof. intros Hkw. unfold train_embedding. by rewrite Hkw. Qed.

(** A load attempt that raises has loaded at most the two models and has
    not touched the heap. *)
Lemma load_persisted_embedding_fail l er d w w' e :
  load_persisted_embedding ext l er d w = (w', inl e) →
  heap w' = heap w ∧
  ∃ evs, trace w' = trace w ++ evs ∧ Forall (λ ev, is_load ev = true ∧ is_train ev = false) evs.
Proof.
  unfold load_persisted_embedding, load_model. intros H.
  unfold mbind, M_bind, emit, lift, deref, store in H. simpl in H.
  repeat case_match; simplify_eq; simpl; (split; [done|]);
    rewrite <-?app_assoc; eexists; (split; [reflexivity|]); by repeat constructor.
Qed.

End Embedding.

(** C5. When the input collection carries [X_scVI], the embedding step does
    nothing: no run of the workflow loads or trains a model, the matrix on
    the caller's collection is what it was, and the working copy goes
    through the step unchanged, with the rows of that matrix for the
    selected cells. *)
Theorem embedding_skipped ext adata er dr sample_col annotation_col alpha outdir
    harmonize_output design kwargs w w' r a0 m0 :
  heap w !! adata = Some a0 →
  obsm a0 !! "X_scVI" = Some m0 →
  scArches_milo ext adata er dr sample_col annotation_col alpha outdir harmonize_output
    design kwargs w = (w', r) →
  (∃ evs, trace w' = trace w ++ evs ∧
          Forall (λ ev, is_load ev = false ∧ is_train ev = false) evs) ∧
  (∃ a, heap w' !! adata = Some a ∧ obsm a !! "X_scVI" = Some m0) ∧
  (∀ grp, columns (obs a0) !! "dataset_group" = Some grp →
     let mask := Series_isin grp [er; dr; "query"] in
     let w1 := mkWorld (heap w ++ [subset_obs mask a0]) (trace w) in
     select_datasets adata er dr w = (w1, inr (length (heap w))) ∧
     embed ext (length (heap w)) er outdir kwargs w1 = (w1, inr ()) ∧
     obsm (subset_obs mask a0) !! "X_scVI" = Some (array_mask_rows mask m0)).
Proof.
  intros Ha HX H.
  assert (∀ m, obsm (subset_obs m a0) !! "X_scVI" = Some (array_mask_rows m m0)) as HX'.
  { intros m. simpl. by rewrite lookup_fmap, HX. }
  assert (∀ m, let w1 := mkWorld (heap w ++ [subset_obs m a0]) (trace w) in
               embed ext (length (heap w)) er outdir kwargs w1 = (w1, inr ())) as Hskip.
  { intros m w1. eapply embed_skip; [apply lookup_alloc|]. rewrite HX'. eauto. }
  split_and!.
  - rewrite scArches_milo_unfold, bind_run in H.
    destruct (columns (obs a0) !! "dataset_group") as [grp|] eqn:Hgrp.
    + rewrite (select_datasets_run _ _ _ _ _ _ Ha Hgrp), bind_run, Hskip in H.
      eapply emits_after_embedding in H; [done|by intros []..].
    + rewrite (select_datasets_fail _ _ _ _ _ Ha Hgrp) in H. injection H as <- <-.
      exists []. by rewrite app_nil_r.
  - exists a0. split; [|done].
    by destruct (caller_frame ext _ _ _ _ _ _ _ _ _ _ _ _ _ _ Ha H).
  - intros grp Hgrp mask w1. split_and!; [by apply select_datasets_run|apply Hskip|done].
Qed.

Lemma embedding_skipped_witness :
  let w := Demo.world Demo.adata_embedded in
  let m0 := mkArray 1 ((λ _, [Demo.f_one]) <$> index (obs Demo.adata0)) in
  let run := scArches_milo Demo.ext 0 "atlas" "ctrl" "sample_id" "cell_annotation"
               float_0_1 (Some "out") true "~ is_query" ∅ w in
  (∃ evs, trace run.1 = trace w ++ evs ∧
          Forall (λ ev, is_load ev = false ∧ is_train ev = false) evs) ∧
  (∃ a, heap run.1 !! 0 = Some a ∧ obsm a !! "X_scVI" = Some m0) ∧
  (∀ grp, columns (obs Demo.adata_embedded) !! "dataset_group" = Some grp →
     let mask := Series_isin grp ["atlas"; "ctrl"; "query"] in
     let w1 := mkWorld (heap w ++ [subset_obs mask Demo.adata_embedded]) (trace w) in
     select_datasets 0 "atlas" "ctrl" w = (w1, inr (length (heap w))) ∧
     embed Demo.ext (length (heap w)) "atlas" (Some "out") ∅ w1 = (w1, inr ()) ∧
     obsm (subset_obs mask Demo.adata_embedded) !! "X_scVI" = Some (array_mask_rows mask m0)).
Proof.
  intros w m0 run.
  apply (embedding_skipped Demo.ext 0 "atlas" "ctrl" "sample_id" "cell_annotation"
           float_0_1 (Some "out") true "~ is_query" ∅ w run.1 run.2 Demo.adata_embedded m0).
  - reflexivity.
  - vm_compute. reflexivity.
  - vm_compute. reflexivity.
Defined.

(** C6, as the code has it. Without an output directory and without an
    embedding on the input, no run of the workflow loads a model. When the
    extra keyword arguments repeat none of the keywords of line 96, the
    first thing the workflow asks of the libraries is to train the
    embedding on the selected copy, and it asks so once. When they repeat
    one, line 96 raises [TypeError]: no library has been called and that is
    the outcome. *)
Theorem no_outdir_trains ext adata er dr sample_col annotation_col alpha harmonize_output
    design kwargs w w' r a0 grp :
  heap w !! adata = Some a0 →
  columns (obs a0) !! "dataset_group" = Some grp →
  obsm a0 !! "X_scVI" = None →
  scArches_milo ext adata er dr sample_col annotation_col alpha None harmonize_output
    design kwargs w = (w', r) →
  let a1 := subset_obs (Series_isin grp [er; dr; "query"]) a0 in
  (∃ evs, trace w' = trace w ++ evs ∧ Forall (λ ev, is_load ev = false) evs) ∧
  (repeated_keyword kwargs = false →
     ∃ evs,
       trace w' = trace w ++ EvTrain a1 er None "sample_id" kwargs :: evs ∧
       Forall (λ ev, is_load ev = false ∧ is_train ev = false) evs) ∧
  (repeated_keyword kwargs = true →
     trace w' = trace w ∧
     r = inl (TypeError "embedding_scArches() got multiple values for keyword argument")).
Proof.
  intros Ha Hgrp HX H a1.
  set (w1 := mkWorld (heap w ++ [a1]) (trace w)).
  assert (heap w1 !! length (heap w) = Some a1) as Ha1 by apply lookup_alloc.
  assert (obsm a1 !! "X_scVI" = None) as HX1.
  { subst a1. simpl. by rewrite lookup_fmap, HX. }
  rewrite scArches_milo_unfold, bind_run in H.
  rewrite (select_datasets_run _ _ _ _ _ _ Ha Hgrp), bind_run in H. fold a1 w1 in H.
  rewrite (embed_train ext _ _ _ _ _ Ha1 HX1) in H.
  destruct (repeated_keyword kwargs) eqn:Hkw.
  - rewrite (train_embedding_repeated ext _ _ _ _ _ Hkw) in H. injection H as <- <-.
    split_and!; [|done|done]. exists []. by rewrite app_nil_r.
  - assert (∃ evs,
              trace w' = trace w ++ EvTrain a1 er None "sample_id" kwargs :: evs ∧
              Forall (λ ev, is_load ev = false ∧ is_train ev = false) evs)
      as (evs & E & F).
    { destruct (train_embedding ext _ er None kwargs w1) as [w2 [e|[]]] eqn:E;
        apply (train_embedding_inv ext _ _ _ _ _ _ _ _ Hkw Ha1) in E as [E _].
      - injection H as <- <-. exists []. rewrite E. split; [reflexivity|constructor].
      - eapply (emits_after_embedding ext (λ ev, is_load ev = false ∧ is_train ev = false))
          in H as (evs & E' & F); [|by intros []..].
        exists evs. rewrite E', E, <-app_assoc. split; [reflexivity|done]. }
    split_and!; [|by exists evs|done].
    eexists. split; [exact E|]. constructor; [done|].
    eapply Forall_impl; [done|]. by intros ? [? _].
Qed.

Lemma no_outdir_trains_witness :
  let w := Demo.world Demo.adata0 in
  let run := scArches_milo Demo.ext 0 "atlas" "ctrl" "sample_id" "cell_annotation"
               float_0_1 None true "~ is_query" ∅ w in
  let grp := ColStr ["atlas"; "ctrl"; "ctrl"; "query"; "query"; "query"; "other"] in
  let a1 := subset_obs (Series_isin grp ["atlas"; "ctrl"; "query"]) Demo.adata0 in
  (∃ evs, trace run.1 = trace w ++ evs ∧ Forall (λ ev, is_load ev = false) evs) ∧
  (repeated_keyword ∅ = false →
     ∃ evs,
       trace run.1 = trace w ++ EvTrain a1 "atlas" None "sample_id" ∅ :: evs ∧
       Forall (λ ev, is_load ev = false ∧ is_train ev = false) evs) ∧
  (repeated_keyword ∅ = true →
     trace run.1 = trace w ∧
     run.2 = inl (TypeError "embedding_scArches() got multiple values for keyword argument")).
Proof.
  intros w run grp a1.
  apply (no_outdir_trains Demo.ext 0 "atlas" "ctrl" "sample_id" "cell_annotation"
           float_0_1 true "~ is_query" ∅ w run.1 run.2 Demo.adata0 grp).
  - reflexivity.
  - vm_compute. reflexivity.
  - vm_compute. reflexivity.
  - vm_compute. reflexivity.
Defined.

(** C6, as it is worded, fails. The caller gives [batch_key], which line 96
    also gives: with no output directory and no embedding on the input the
    workflow raises [TypeError], and it has trained nothing. *)
Lemma no_outdir_repeated_keyword :
  let kwargs : gmap string pyval := {[ "batch_key" := PyStr "donor" ]} in
  let w := Demo.world Demo.adata0 in
  let run := scArches_milo Demo.ext 0 "atlas" "ctrl" "sample_id" "cell_annotation"
               float_0_1 None true "~ is_query" kwargs w in
  heap w !! 0 = Some Demo.adata0 ∧
  obsm Demo.adata0 !! "X_scVI" = None ∧
  run.2 = inl (TypeError "embedding_scArches() got multiple values for keyword argument") ∧
  trace run.1 = [] ∧
  ¬ ∃ ev, ev ∈ trace run.1 ∧ is_train ev = true.
Proof.
  intros kwargs w run.
  assert (trace run.1 = []) as E by (vm_compute; reflexivity).
  split_and!; [reflexivity|vm_compute; reflexivity|vm_compute; reflexivity|done|].
  rewrite E. intros (ev & Hin & _). by apply elem_of_nil in Hin.
Qed.


(** A model directory that cannot be read: the error is neither of the two
    handled kinds, so it ends the workflow after the first load attempt. *)
Example permission_error_propagates :
  let run := scArches_milo Demo.ext_denied 0 "atlas" "atlas" "sample_id" "cell_annotation"
               float_0_1 (Some "out") true "~ is_query" ∅ (Demo.world Demo.adata_rq) in
  run.2 = inl (Demo.PermissionError "out/model_atlas/") ∧
  trace run.1 = [EvLoad "out/model_atlas/"].
Proof. split; vm_compute; reflexivity. Qed.



(** * Subsetting by group *)

Lemma mask_filter_rows {A B} (f : B → bool) (l : list A) (keys : list B) :
  mask_filter (f <$> keys) l = (filter (λ p, f p.2 = true) (zip l keys)).*1.
Proof.
  revert l. induction keys as [|k keys IH]; intros [|x l]; simpl; try done.
  rewrite filter_cons. simpl. destruct (f k) eqn:E.
  - rewrite decide_True by done. simpl. by rewrite IH.
  - rewrite decide_False by (by intros ?). apply IH.
Qed.

Lemma mask_filter_self {A} (f : A → bool) (l : list A) :
  Forall (λ x, f x = true) (mask_filter (f <$> l) l).
Proof.
  induction l as [|x l IH]; simpl; [constructor|].
  destruct (f x) eqn:E; [by constructor|done].
Qed.

(** The copy made with a mask on the group labels: its cells are the cells
    whose label passes, in order, and every label in it passes. *)
Lemma subset_by_group (f : value → bool) (keep : value → Prop) `{∀ v, Decision (keep v)}
    (a : AnnData) grp :
  (∀ v, f v = true ↔ keep v) →
  columns (obs a) !! "dataset_group" = Some grp →
  let a' := subset_obs (f <$> Series_values grp) a in
  obs_names a' = rows_where keep (obs_names a) (Series_values grp) ∧
  Forall keep (group_values a').
Proof.
  intros Hf Hgrp a'. split.
  - unfold obs_names, rows_where. simpl. rewrite mask_filter_rows. do 2 f_equal.
    apply list_filter_iff. intros [? v]. apply Hf.
  - unfold group_values. simpl. rewrite lookup_fmap, Hgrp. simpl.
    rewrite Series_values_mask. eapply Forall_impl; [apply mask_filter_self|].
    intros v. apply Hf.
Qed.


Lemma value_isin_true xs v : value_isin xs v = true ↔ v ∈ VStr <$> xs.
Proof.
  destruct v; simpl; rewrite ?bool_decide_eq_true, list_elem_of_fmap;
    [split; [eauto|by intros (? & [= ->] & ?)]|split; [done|intros (? & [=] & _)]..].
Qed.



Section Dropped.
Context (ext : Externals).



End Dropped.



(** * The query label *)

Lemma value_eq_str_decide x v : value_eq_str x v = bool_decide (v = VStr x).
Proof.
  destruct v; simpl; [|done..].
  apply bool_decide_ext. split; congruence.
Qed.

Lemma emits_is_query_ok ext adata er dr sample_col annotation_col alpha outdir
    harmonize_output design kwargs :
  emits is_query_ok
    (scArches_milo ext adata er dr sample_col annotation_col alpha outdir harmonize_output
       design kwargs).
Proof.
  unfold scArches_milo.
  apply emits_bind; [apply emits_select_datasets|intros l].
  apply emits_bind; [apply emits_embed; by intros [] [|]|intros _].
  apply emits_bind; [apply emits_drop_embedding_reference|intros l'].
  apply emits_bind; [apply emits_make_knn_graph; by intros []|intros _].
  apply emits_bind; [apply emits_run_milo_is_query|intros _].
  apply emits_bind; [|intros _; apply emits_ret].
  destruct harmonize_output; [apply emits_harmonize|apply emits_ret].
Qed.


(** * The presets *)

(** C8. Called with keyword arguments that leave the two references alone,
    each preset gives what [scArches_milo] gives with the references set to
    (atlas, ctrl), (atlas, atlas) and (ctrl, ctrl) and every other
    parameter as the caller gave it, or at its default. *)
Theorem presets_forward ext adata kwargs w :
  kw_embedding_reference kwargs = None →
  kw_diff_reference kwargs = None →
  let main embedding_reference diff_reference :=
    scArches_milo ext adata embedding_reference diff_reference
      (default "sample_id" (kw_sample_col kwargs))
      (default "cell_annotation" (kw_annotation_col kwargs))
      (default float_0_1 (kw_signif_alpha kwargs))
      (default None (kw_outdir kwargs))
      (default true (kw_harmonize_output kwargs))
      (default "~ is_query" (kw_milo_design kwargs))
      (kw_rest kwargs) w in
  scArches_atlas_milo_ctrl ext adata kwargs w = main "atlas" "ctrl" ∧
  scArches_atlas_milo_atlas ext adata kwargs w = main "atlas" "atlas" ∧
  scArches_ctrl_milo_ctrl ext adata kwargs w = main "ctrl" "ctrl".
Proof.
  intros Her Hdr main.
  unfold scArches_atlas_milo_ctrl, scArches_atlas_milo_atlas, scArches_ctrl_milo_ctrl,
    call_with_references.
  rewrite Her, Hdr. by split_and!.
Qed.

Lemma presets_forward_witness :
  let kwargs := mkKwargs None None None None (Some Demo.f_0_01) (Some (Some "out")) None None ∅ in
  let w := Demo.world Demo.adata0 in
  let main embedding_reference diff_reference :=
    scArches_milo Demo.ext 0 embedding_reference diff_reference
      "sample_id" "cell_annotation" Demo.f_0_01 (Some "out") true "~ is_query" ∅ w in
  scArches_atlas_milo_ctrl Demo.ext 0 kwargs w = main "atlas" "ctrl" ∧
  scArches_atlas_milo_atlas Demo.ext 0 kwargs w = main "atlas" "atlas" ∧
  scArches_ctrl_milo_ctrl Demo.ext 0 kwargs w = main "ctrl" "ctrl".
Proof.
  intros kwargs w main.
  apply (presets_forward Demo.ext 0 kwargs w); reflexivity.
Defined.

(** * The persisted models *)

(** C2, as the code has it. When both persisted models load and their
    latent matrices fit the working collection, the matrix attached under
    [X_scVI] is the latent rows of the query model followed by those of the
    reference model, each in the order of the cells the model was saved
    with, and nothing is trained. Row [i] is the latent vector of cell [i]
    when the working collection lists the cells of the query model and then
    those of the reference model. *)
Theorem fast_path_embedding ext l er d kwargs w a vae_ref vae_q z_q z_ref :
  heap w !! l = Some a →
  obsm a !! "X_scVI" = None →
  SCVI_load ext (model_dir d er) = inr vae_ref →
  SCVI_load ext (model_fit_dir d er) = inr vae_q →
  get_latent_representation vae_q = inr z_q →
  get_latent_representation vae_ref = inr z_ref →
  ncols z_q = ncols z_ref →
  nrows z_q + nrows z_ref = n_obs a →
  let z := mkArray (ncols z_q) (rows z_q ++ rows z_ref) in
  ∃ a',
    embed ext l er (Some d) kwargs w =
      (mkWorld (<[l := a']> (heap w))
               (trace w ++ [EvLoad (model_dir d er); EvLoad (model_fit_dir d er)]),
       inr ()) ∧
    obsm a' !! "X_scVI" = Some z ∧
    obs a' = obs a ∧
    ∀ latent,
      rows z_q = latent <$> model_obs_names vae_q →
      rows z_ref = latent <$> model_obs_names vae_ref →
      rows z = latent <$> (model_obs_names vae_q ++ model_obs_names vae_ref) ∧
      (obs_names a = model_obs_names vae_q ++ model_obs_names vae_ref →
       aligned latent (obs_names a) z).
Proof.
  intros Ha HX Href Hq Hzq Hzref Hcols Hrows z.
  rewrite (embed_try ext _ _ _ _ _ _ Ha HX).
  unfold try_except, load_persisted_embedding, load_model.
  unfold mbind, M_bind, emit, lift, deref, store. simpl.
  rewrite Href, Hq, Hzq, Hzref. unfold vstack. rewrite bool_decide_eq_true_2 by done.
  rewrite Ha. unfold set_obsm. rewrite bool_decide_eq_true_2.
  2:{ unfold nrows in *. simpl. by rewrite length_app. }
  eexists. split_and!; [by rewrite <-app_assoc| |done|].
  - simpl. apply lookup_insert_eq.
  - intros latent Eq Eref. subst z. simpl. rewrite Eq, Eref, <-fmap_app. split; [done|].
    intros Hnames i name Hi. simpl. rewrite Hnames in Hi.
    by rewrite list_lookup_fmap, Hi.
Qed.

Lemma fast_path_embedding_witness :
  let a := Demo.adata_qr in
  let w := Demo.world a in
  let z := mkArray 1 ([[Demo.f_one]] ++ [[Demo.f_two]]) in
  ∃ a',
    embed Demo.ext_persisted 0 "atlas" (Some "out") ∅ w =
      (mkWorld (<[0 := a']> (heap w))
               (trace w ++ [EvLoad (model_dir "out" "atlas");
                            EvLoad (model_fit_dir "out" "atlas")]),
       inr ()) ∧
    obsm a' !! "X_scVI" = Some z ∧
    obs a' = obs a ∧
    ∀ latent,
      [[Demo.f_one]] = latent <$> model_obs_names Demo.vae_q →
      [[Demo.f_two]] = latent <$> model_obs_names Demo.vae_ref →
      rows z = latent <$> (model_obs_names Demo.vae_q ++ model_obs_names Demo.vae_ref) ∧
      (obs_names a = model_obs_names Demo.vae_q ++ model_obs_names Demo.vae_ref →
       aligned latent (obs_names a) z).
Proof.
  intros a w z.
  apply (fast_path_embedding Demo.ext_persisted 0 "atlas" "out" ∅ w a
           Demo.vae_ref Demo.vae_q (mkArray 1 [[Demo.f_one]]) (mkArray 1 [[Demo.f_two]]));
    reflexivity.
Defined.

(** C2, as it is worded, fails. The two-cell cohort lists its atlas cell
    before its query cell. Both models load, each saved with the cells of
    its group in the order of the collection, and nothing is trained; the
    matrix attached has the latent vector of the query cell in the row of
    the atlas cell. *)
Lemma fast_path_misaligned :
  let w := Demo.world Demo.adata_rq in
  let run := scArches_milo Demo.ext_persisted 0 "atlas" "atlas" "sample_id" "cell_annotation"
               float_0_1 (Some "out") true "~ is_query" ∅ w in
  ∃ a z,
    run.2 = inr 1 ∧
    heap run.1 !! 1 = Some a ∧
    obsm a !! "X_scVI" = Some z ∧
    filter (λ ev, is_load ev = true ∨ is_train ev = true) (trace run.1) =
      [EvLoad "out/model_atlas/"; EvLoad "out/model_fit_query2atlas/"] ∧
    model_obs_names Demo.vae_q =
      rows_where (λ g, g = VStr "query") (obs_names a) (group_values a) ∧
    model_obs_names Demo.vae_ref =
      rows_where (λ g, g = VStr "atlas") (obs_names a) (group_values a) ∧
    get_latent_representation Demo.vae_q =
      inr (mkArray 1 (Demo.latent_of <$> model_obs_names Demo.vae_q)) ∧
    get_latent_representation Demo.vae_ref =
      inr (mkArray 1 (Demo.latent_of <$> model_obs_names Demo.vae_ref)) ∧
    rows z = Demo.latent_of <$> ["q1"; "a1"] ∧
    obs_names a = ["a1"; "q1"] ∧
    ¬ aligned Demo.latent_of (obs_names a) z.
Proof.
  intros w run. eexists _, _.
  split; [vm_compute; reflexivity|].
  split; [vm_compute; reflexivity|].
  split; [vm_compute; reflexivity|].
  split_and!; try (vm_compute; reflexivity).
  intros Haligned. specialize (Haligned 0 "a1" eq_refl). vm_compute in Haligned.
  discriminate.
Qed.

(** * More on the runs of the workflow *)

Lemma call_inplace_inr l ev f w w' u :
  call_inplace l ev f w = (w', inr u) →
  ∃ a a', heap w !! l = Some a ∧ f a = inr a' ∧
          w' = mkWorld (<[l := a']> (heap w)) (trace w ++ [ev a]).
Proof.
  destruct (heap w !! l) as [a|] eqn:Ha.
  - rewrite (call_inplace_run _ _ _ _ _ Ha). destruct (f a) as [|a'] eqn:Hf; [done|].
    intros [= <- _]. by exists a, a'.
  - unfold call_inplace. rewrite bind_run. unfold deref. by rewrite Ha.
Qed.

Lemma emit_inr ev w w' u :
  emit ev w = (w', inr u) → w' = mkWorld (heap w) (trace w ++ [ev]).
Proof. by intros [= <- _]. Qed.

(** A run of [run_milo] that returns, step by step. *)
Lemma run_milo_inv ext l query_group reference_group sample_col annotation_col design w w' :
  run_milo ext l query_group reference_group sample_col annotation_col design w
    = (w', inr ()) →
  ∃ a0 a1 a2 grp nh a4,
    heap w !! l = Some a0 ∧
    milopy_make_nhoods ext a0 float_0_1 = inr a1 ∧
    milopy_count_nhoods ext a1 sample_col = inr a2 ∧
    columns (obs a2) !! "dataset_group" = Some grp ∧
    let view := subset_obs (Series_eq_str grp reference_group) a2 in
    let a3 :=
      set_obs (df_set (obs a2) "is_query" (ColBool (Series_eq_str grp query_group)))
              (set_uns (alter (λ _, UnsAnnData nh) "nhood_adata" (uns a2)) a2) in
    milopy_annotate_nhoods ext view annotation_col = inr nh ∧
    milopy_DA_nhoods ext a3 design = inr a4 ∧
    trace w' = trace w ++
      [EvMakeNhoods a0 float_0_1; EvCountNhoods a1 sample_col;
       EvAnnotateNhoods view annotation_col; EvDANhoods a3 design] ∧
    heap w' = <[l := a4]> (heap w).
Proof.
  unfold run_milo. intros H.
  apply bind_inr in H as ([] & w1 & H1 & H).
  apply call_inplace_inr in H1 as (a0 & a1 & Ha0 & Hf1 & ->).
  pose proof (lookup_lt_Some _ _ _ Ha0) as Hl.
  apply bind_inr in H as ([] & w2 & H2 & H).
  apply call_inplace_inr in H2 as (a1' & a2 & Ha1 & Hf2 & ->).
  simpl in Ha1. rewrite lookup_store in Ha1 by done. injection Ha1 as <-.
  apply bind_inr in H as (a2' & w3 & [-> Ha2]%deref_inr & H).
  simpl in Ha2. rewrite lookup_store in Ha2 by (by rewrite length_insert).
  injection Ha2 as <-.
  apply bind_inr in H as (grp & w3 & [-> Hgrp]%lift_inr & H).
  apply bind_inr in H as ([] & w3 & ->%emit_inr & H).
  apply bind_inr in H as (nh & w3 & [-> Hnh]%lift_inr & H).
  apply bind_inr in H as ([] & w3 & H3 & H). rewrite store_run in H3. injection H3 as <-.
  apply bind_inr in H as (a3 & w4 & [-> Ha3]%deref_inr & H).
  simpl in Ha3. rewrite lookup_store in Ha3 by (by rewrite !length_insert).
  injection Ha3 as <-.
  apply bind_inr in H as (grp' & w4 & [-> Hgrp']%lift_inr & H).
  apply bind_inr in H as ([] & w4 & H4 & H). rewrite store_run in H4. injection H4 as <-.
  apply call_inplace_inr in H as (a3' & a4 & Ha3 & Hf4 & ->).
  simpl in Ha3. rewrite lookup_store in Ha3 by (by rewrite !length_insert).
  injection Ha3 as <-.
  unfold df_get in Hgrp, Hgrp'. simpl in Hgrp'.
  destruct (columns (obs a2) !! "dataset_group") as [g|] eqn:Hg; simplify_eq.
  exists a0, a1, a2, grp, nh, a4. simpl.
  split_and!; [done..| |].
  - by rewrite <-!app_assoc.
  - by rewrite !list_insert_insert_eq.
Qed.



Lemma make_knn_graph_inr ext l dr sample_col w w' :
  make_knn_graph ext l dr sample_col w = (w', inr ()) →
  ∃ a a' k,
    heap w !! l = Some a ∧
    k = (5 * (Z.of_nat (n_distinct (group_samples a sample_col dr))
              + Z.of_nat (n_distinct (group_samples a sample_col "query"))))%Z ∧
    sc_pp_neighbors ext a "X_scVI" k = inr a' ∧
    w' = mkWorld (<[l := a']> (heap w)) (trace w ++ [EvNeighbors a "X_scVI" k]).
Proof.
  unfold make_knn_graph. intros H.
  apply bind_inr in H as (a & w1 & [-> Ha]%deref_inr & H).
  apply bind_inr in H as (n1 & w1 & [-> H1]%n_samples_inv & H).
  apply bind_inr in H as (n2 & w1 & [-> H2]%n_samples_inv & H).
  apply call_inplace_inr in H as (a0 & a' & Ha0 & Hf & ->).
  rewrite Ha in Ha0. injection Ha0 as <-.
  rewrite (H1 _ eq_refl), (H2 _ eq_refl) in *.
  replace ((_ + _) * 5)%Z with
    (5 * (Z.of_nat (n_distinct (group_samples a sample_col dr))
          + Z.of_nat (n_distinct (group_samples a sample_col "query"))))%Z in * by lia.
  by eexists a, a', _.
Qed.

Lemma harmonize_silent l alpha w w' r : harmonize l alpha w = (w', r) → trace w' = trace w.
Proof.
  intros H. apply (emits_harmonize (λ _, False)) in H as (evs & E & F).
  destruct evs as [|ev evs]; [by rewrite app_nil_r in E|]. by inversion F.
Qed.

(** A run of the workflow that returns, from the graph on. *)
Lemma scArches_milo_inr ext adata er dr sample_col annotation_col alpha outdir
    harmonize_output design kwargs w w' l :
  scArches_milo ext adata er dr sample_col annotation_col alpha outdir harmonize_output
    design kwargs w = (w', inr l) →
  ∃ pre a k a0 a1 view a3 a4,
    Forall (λ ev, is_load ev = true ∨ is_train ev = true) pre ∧
    sc_pp_neighbors ext a "X_scVI" k = inr a0 ∧
    Forall (λ g, g = VStr dr) (group_values view) ∧
    milopy_DA_nhoods ext a3 design = inr a4 ∧
    trace w' = trace w ++ pre ++
      [EvNeighbors a "X_scVI" k; EvMakeNhoods a0 float_0_1; EvCountNhoods a1 sample_col;
       EvAnnotateNhoods view annotation_col; EvDANhoods a3 design] ∧
    (harmonize_output = false → heap w' !! l = Some a4) ∧
    (harmonize_output = true →
       ∃ sample_adata,
         heap w' !! l =
           Some (set_uns (<["sample_adata" := UnsAnnData sample_adata]> (uns a4)) a4)).
Proof.
  unfold scArches_milo. intros H.
  apply bind_inr in H as (l1 & w1 & H1 & H).
  apply (emits_select_datasets (λ ev, is_load ev = true ∨ is_train ev = true)) in H1
    as (e1 & E1 & F1).
  apply bind_inr in H as ([] & w2 & H2 & H).
  apply (emits_embed ext (λ ev, is_load ev = true ∨ is_train ev = true)) in H2
    as (e2 & E2 & F2); [|done].
  apply bind_inr in H as (l2 & w3 & H3 & H).
  apply (emits_drop_embedding_reference (λ _, False)) in H3 as (e3 & E3 & F3).
  assert (e3 = []) as -> by (destruct e3; [done|by inversion F3]).
  rewrite app_nil_r in E3.
  apply bind_inr in H as ([] & w4 & H4 & H).
  apply make_knn_graph_inr in H4 as (a & a0 & k & Ha & _ & Hn & ->).
  pose proof (lookup_lt_Some _ _ _ Ha) as Hl.
  apply bind_inr in H as ([] & w5 & H5 & H).
  apply run_milo_inv in H5
    as (a0' & a1 & a2 & grp & nh & a4 & Ha0 & Hm & Hc & Hgrp & Hnh & Hda & Htr & Hh).
  simpl in Ha0. rewrite lookup_store in Ha0 by done. injection Ha0 as <-.
  simpl in Htr, Hh. rewrite list_insert_insert_eq in Hh.
  apply bind_inr in H as ([] & w6 & H6 & H). injection H as <- <-.
  eexists (e1 ++ e2), a, k, a0, a1, _, _, a4.
  split_and!; [by apply Forall_app|done| |exact Hda| | |].
  - apply (subset_by_group (value_eq_str dr) (λ g, g = VStr dr) a2 grp
             (value_eq_str_true dr) Hgrp).
  - assert (trace w6 = trace w5) as ->.
    { destruct harmonize_output; [by eapply harmonize_silent|by injection H6 as <-]. }
    rewrite Htr, E3, E2, E1. by rewrite <-!app_assoc.
  - intros ->. injection H6 as <-. rewrite Hh. by apply lookup_store.
  - intros ->. apply harmonize_inv in H6
      as (a' & ? & sa & ? & ? & ? & ? & Ha' & _ & _ & _ & _ & _ & _ & _ & ->).
    rewrite Hh, lookup_store in Ha' by done. injection Ha' as <-.
    exists sa. simpl. rewrite lookup_store; [done|]. by rewrite Hh, length_insert.
Qed.

(** C10. The query group is the literal label [query]: the first subset
    keeps the cells labelled [embedding_reference], [diff_reference] or
    [query] and no other; the neighbour count takes its query samples from
    the cells labelled [query]; and the covariate [is_query] that the test
    is given is, row by row, whether the label is [query]. So cells under
    another label are left out by the first subset, and where no cell is
    labelled [query] the covariate is false on every cell. A run that
    returns has asked for the graph and has ended its calls with the test,
    so both have been given what is said here. *)
Theorem query_label_literal ext adata er dr sample_col annotation_col alpha outdir
    harmonize_output design kwargs w w' r a0 grp0 :
  heap w !! adata = Some a0 →
  columns (obs a0) !! "dataset_group" = Some grp0 →
  scArches_milo ext adata er dr sample_col annotation_col alpha outdir harmonize_output
    design kwargs w = (w', r) →
  let kept := [VStr er; VStr dr; VStr "query"] in
  let a1 := subset_obs (Series_isin grp0 [er; dr; "query"]) a0 in
  (select_datasets adata er dr w =
     (mkWorld (heap w ++ [a1]) (trace w), inr (length (heap w))) ∧
   obs_names a1 = rows_where (λ g, g ∈ kept) (obs_names a0) (Series_values grp0) ∧
   Forall (λ g, g ∈ kept) (group_values a1)) ∧
  ∃ evs, trace w' = trace w ++ evs ∧
    (∀ a use_rep k, EvNeighbors a use_rep k ∈ evs →
       k = (5 * (Z.of_nat (n_distinct (group_samples a sample_col dr))
                 + Z.of_nat (n_distinct (group_samples a sample_col "query"))))%Z) ∧
    (∀ a d, EvDANhoods a d ∈ evs →
       ∃ grp is_query,
         columns (obs a) !! "dataset_group" = Some grp ∧
         columns (obs a) !! "is_query" = Some (ColBool is_query) ∧
         length is_query = Series_len grp ∧
         (∀ i g, Series_values grp !! i = Some g →
                 is_query !! i = Some (bool_decide (g = VStr "query"))) ∧
         ((∀ g, g ∈ Series_values grp → g ≠ VStr "query") →
          Forall (λ b, b = false) is_query)) ∧
    (∀ l, r = inr l →
       ∃ pre a k mid a3,
         evs = pre ++ EvNeighbors a "X_scVI" k :: mid ++ [EvDANhoods a3 design] ∧
         Forall (λ ev, is_load ev = true ∨ is_train ev = true) pre).
Proof.
  intros Ha Hgrp H kept a1. split.
  - split; [by apply select_datasets_run|].
    apply (subset_by_group (value_isin [er; dr; "query"]) (λ g, g ∈ kept) a0 grp0); [|done].
    intros v. by rewrite value_isin_true.
  - destruct (emits_neighbors_ok _ _ _ _ _ _ _ _ _ _ _ _ _ _ H) as (evs & E & F).
    destruct (emits_is_query_ok _ _ _ _ _ _ _ _ _ _ _ _ _ _ H) as (evs' & E' & F').
    rewrite E in E'. apply app_inv_head in E' as <-.
    exists evs. split_and!; [done| | |].
    + intros a use_rep k Hin. rewrite Forall_forall in F. by destruct (F _ Hin) as [_ ->].
    + intros a d Hin. rewrite Forall_forall in F'.
      destruct (F' _ Hin) as (grp & Hg & Hq). exists grp, (Series_eq_str grp "query").
      unfold Series_eq_str, Series_len. split_and!; [done..|by rewrite length_fmap| |].
      * intros i g Hi. by rewrite list_lookup_fmap, Hi, <-value_eq_str_decide.
      * intros Hnone. rewrite Forall_fmap, Forall_forall. intros g Hg'. simpl.
        rewrite value_eq_str_decide. apply bool_decide_eq_false_2. by apply Hnone.
    + intros l ->.
      apply scArches_milo_inr in H
        as (pre & a & k & b0 & b1 & view & a3 & a4 & Fpre & _ & _ & _ & Htr & _).
      rewrite E in Htr. apply app_inv_head in Htr as ->.
      by exists pre, a, k, [EvMakeNhoods b0 float_0_1; EvCountNhoods b1 sample_col;
                         EvAnnotateNhoods view annotation_col], a3.
Qed.

Lemma query_label_literal_witness :
  let w := Demo.world Demo.adata0 in
  let grp0 := ColStr ["atlas"; "ctrl"; "ctrl"; "query"; "query"; "query"; "other"] in
  let run := scArches_milo Demo.ext 0 "atlas" "ctrl" "sample_id" "cell_annotation"
               float_0_1 None true "~ is_query" ∅ w in
  let kept := [VStr "atlas"; VStr "ctrl"; VStr "query"] in
  let a1 := subset_obs (Series_isin grp0 ["atlas"; "ctrl"; "query"]) Demo.adata0 in
  run.2 = inr 2 ∧
  (select_datasets 0 "atlas" "ctrl" w =
     (mkWorld (heap w ++ [a1]) (trace w), inr (length (heap w))) ∧
   obs_names a1 = rows_where (λ g, g ∈ kept) (obs_names Demo.adata0) (Series_values grp0) ∧
   Forall (λ g, g ∈ kept) (group_values a1)) ∧
  ∃ evs, trace run.1 = trace w ++ evs ∧
    (∀ a use_rep k, EvNeighbors a use_rep k ∈ evs →
       k = (5 * (Z.of_nat (n_distinct (group_samples a "sample_id" "ctrl"))
                 + Z.of_nat (n_distinct (group_samples a "sample_id" "query"))))%Z) ∧
    (∀ a d, EvDANhoods a d ∈ evs →
       ∃ grp is_query,
         columns (obs a) !! "dataset_group" = Some grp ∧
         columns (obs a) !! "is_query" = Some (ColBool is_query) ∧
         length is_query = Series_len grp ∧
         (∀ i g, Series_values grp !! i = Some g →
                 is_query !! i = Some (bool_decide (g = VStr "query"))) ∧
         ((∀ g, g ∈ Series_values grp → g ≠ VStr "query") →
          Forall (λ b, b = false) is_query)) ∧
    (∀ l, run.2 = inr l →
       ∃ pre a k mid a3,
         evs = pre ++ EvNeighbors a "X_scVI" k :: mid ++ [EvDANhoods a3 "~ is_query"] ∧
         Forall (λ ev, is_load ev = true ∨ is_train ev = true) pre).
Proof.
  intros w grp0 run kept a1.
  assert (heap w !! 0 = Some Demo.adata0) as H1 by reflexivity.
  assert (columns (obs Demo.adata0) !! "dataset_group" = Some grp0) as H2
    by (vm_compute; reflexivity).
  assert (scArches_milo Demo.ext 0 "atlas" "ctrl" "sample_id" "cell_annotation"
            float_0_1 None true "~ is_query" ∅ w = (run.1, run.2)) as H3
    by (vm_compute; reflexivity).
  split; [vm_compute; reflexivity|].
  exact (query_label_literal Demo.ext 0 "atlas" "ctrl" "sample_id" "cell_annotation"
           float_0_1 None true "~ is_query" ∅ w run.1 run.2 Demo.adata0 grp0 H1 H2 H3).
Defined.

(** X2. A run of the workflow that returns has called the libraries in one
    order: first the loads and the training of the embedding step, if any,
    then the graph builder once, then [make_nhoods] on what the graph
    builder left, [count_nhoods], [annotate_nhoods] on cells of
    [diff_reference] only, and [DA_nhoods]; the harmonizing step calls no
    library. *)
Theorem pipeline_order ext adata er dr sample_col annotation_col alpha outdir
    harmonize_output design kwargs w w' l :
  scArches_milo ext adata er dr sample_col annotation_col alpha outdir harmonize_output
    design kwargs w = (w', inr l) →
  ∃ pre a k a0 a1 view a3,
    Forall (λ ev, is_load ev = true ∨ is_train ev = true) pre ∧
    sc_pp_neighbors ext a "X_scVI" k = inr a0 ∧
    Forall (λ g, g = VStr dr) (group_values view) ∧
    trace w' = trace w ++ pre ++
      [EvNeighbors a "X_scVI" k; EvMakeNhoods a0 float_0_1; EvCountNhoods a1 sample_col;
       EvAnnotateNhoods view annotation_col; EvDANhoods a3 design].
Proof.
  intros (pre & a & k & a0 & a1 & view & a3 & a4 & ? & ? & ? & _ & ? & _)%scArches_milo_inr.
  by exists pre, a, k, a0, a1, view, a3.
Qed.

Lemma pipeline_order_witness :
  let w := Demo.world Demo.adata0 in
  let w' := (scArches_milo Demo.ext 0 "atlas" "ctrl" "sample_id" "cell_annotation" float_0_1
               (Some "out") true "~ is_query" ∅ w).1 in
  ∃ pre a k a0 a1 view a3,
    Forall (λ ev, is_load ev = true ∨ is_train ev = true) pre ∧
    sc_pp_neighbors Demo.ext a "X_scVI" k = inr a0 ∧
    Forall (λ g, g = VStr "ctrl") (group_values view) ∧
    trace w' = trace w ++ pre ++
      [EvNeighbors a "X_scVI" k; EvMakeNhoods a0 float_0_1; EvCountNhoods a1 "sample_id";
       EvAnnotateNhoods view "cell_annotation"; EvDANhoods a3 "~ is_query"].
Proof.
  intros w w'.
  apply (pipeline_order Demo.ext 0 "atlas" "ctrl" "sample_id" "cell_annotation" float_0_1
           (Some "out") true "~ is_query" ∅ w w' 2).
  vm_compute. reflexivity.
Defined.

(** X3. The collection that the workflow returns is the one that
    [DA_nhoods] left, as it is when [harmonize_output] is off, and with the
    single addition of [uns["sample_adata"]] when it is on. *)
Theorem returned_collection ext adata er dr sample_col annotation_col alpha outdir
    harmonize_output design kwargs w w' l :
  scArches_milo ext adata er dr sample_col annotation_col alpha outdir harmonize_output
    design kwargs w = (w', inr l) →
  ∃ evs a3 a4,
    trace w' = trace w ++ evs ++ [EvDANhoods a3 design] ∧
    milopy_DA_nhoods ext a3 design = inr a4 ∧
    (harmonize_output = false → heap w' !! l = Some a4) ∧
    (harmonize_output = true →
       ∃ sample_adata,
         heap w' !! l =
           Some (set_uns (<["sample_adata" := UnsAnnData sample_adata]> (uns a4)) a4)).
Proof.
  intros (pre & a & k & a0 & a1 & view & a3 & a4 & _ & _ & _ & Hda & Htr & Hoff & Hon)
    %scArches_milo_inr.
  eexists (pre ++ [_; _; _; _]), a3, a4. split_and!; [|done..].
  rewrite Htr. by rewrite <-!app_assoc.
Qed.

Lemma returned_collection_witness :
  let w := Demo.world Demo.adata0 in
  let w' := (scArches_milo Demo.ext 0 "atlas" "ctrl" "sample_id" "cell_annotation" float_0_1
               None false "~ is_query" ∅ w).1 in
  ∃ evs a3 a4,
    trace w' = trace w ++ evs ++ [EvDANhoods a3 "~ is_query"] ∧
    milopy_DA_nhoods Demo.ext a3 "~ is_query" = inr a4 ∧
    (false = false → heap w' !! 2 = Some a4) ∧
    (false = true →
       ∃ sample_adata,
         heap w' !! 2 =
           Some (set_uns (<["sample_adata" := UnsAnnData sample_adata]> (uns a4)) a4)).
Proof.
  intros w w'.
  apply (returned_collection Demo.ext 0 "atlas" "ctrl" "sample_id" "cell_annotation"
           float_0_1 None false "~ is_query" ∅ w w' 2).
  vm_compute. reflexivity.
Defined.

(** X4. A collection without the [dataset_group] column is refused at the
    first statement: the workflow raises [KeyError], having copied nothing
    and called no library. *)
Theorem missing_group_column ext adata er dr sample_col annotation_col alpha outdir
    harmonize_output design kwargs w a0 :
  heap w !! adata = Some a0 →
  columns (obs a0) !! "dataset_group" = None →
  scArches_milo ext adata er dr sample_col annotation_col alpha outdir harmonize_output
    design kwargs w = (w, inl (KeyError "dataset_group")).
Proof.
  intros Ha Hgrp. rewrite scArches_milo_unfold, bind_run.
  by rewrite (select_datasets_fail _ _ _ _ _ Ha Hgrp).
Qed.

Lemma missing_group_column_witness :
  let w := Demo.world Cases.adata_no_group in
  scArches_milo Demo.ext 0 "atlas" "ctrl" "sample_id" "cell_annotation" float_0_1 None
    true "~ is_query" ∅ w = (w, inl (KeyError "dataset_group")).
Proof.
  intros w.
  apply (missing_group_column Demo.ext 0 "atlas" "ctrl" "sample_id" "cell_annotation"
           float_0_1 None true "~ is_query" ∅ w Cases.adata_no_group); reflexivity.
Defined.

(** * More on the harmonized table *)

(** The table that a successful [harmonize] attaches, in full. *)
Lemma harmonize_success l alpha w w' :
  harmonize l alpha w = (w', inr ()) →
  ∃ a nhood_adata fdr logFC signif enriched nhoods,
    heap w !! l = Some a ∧
    uns a !! "nhood_adata" = Some (UnsAnnData nhood_adata) ∧
    columns (obs nhood_adata) !! "SpatialFDR" = Some fdr ∧
    columns (obs nhood_adata) !! "logFC" = Some logFC ∧
    Series_lt_float fdr alpha = inr signif ∧
    Series_gt_int logFC 0 = inr enriched ∧
    obsm a !! "nhoods" = Some nhoods ∧
    ncols nhoods = n_obs nhood_adata ∧
    let sample_adata :=
      mkAnnData (transpose (X nhood_adata)) (var nhood_adata)
        (mkDataFrame (index (obs nhood_adata))
           (<["OOR_signif" := astype_int (Series_and signif enriched)]>
              (<["OOR_score" := logFC]> (columns (obs nhood_adata)))))
        (varm nhood_adata) (<["groups" := transpose nhoods]> (obsm nhood_adata))
        (varp nhood_adata) (obsp nhood_adata) (uns nhood_adata) in
    w' = mkWorld (<[l := set_uns (<["sample_adata" := UnsAnnData sample_adata]> (uns a)) a]>
                    (heap w)) (trace w).
Proof.
  unfold harmonize. intros H.
  inv_step H. inv_step H. inv_step H. inv_step H. inv_step H. inv_step H. inv_step H.
  inv_step H. inv_step H. rewrite store_run in H. injection H as <-.
  unfold get_uns_adata in Hstep0.
  destruct (uns x !! "nhood_adata") as [[n|]|] eqn:Hn; simplify_eq.
  unfold df_get in *. simpl in *.
  destruct (columns (obs x0) !! "logFC") as [c|] eqn:HlogFC; simplify_eq.
  rewrite lookup_insert_ne in Hstep2, Hstep4 by done.
  rewrite HlogFC in Hstep4. simplify_eq.
  destruct (columns (obs x0) !! "SpatialFDR") as [c|] eqn:Hfdr; simplify_eq.
  unfold get_obsm in Hstep6. destruct (obsm x !! "nhoods") as [m|] eqn:Hm; simplify_eq.
  unfold set_varm in Hstep7. case_bool_decide as Hshape; simplify_eq.
  exists x, x0, x2, x4, x3, x5, x6. split_and!; [done..| |reflexivity].
  unfold nrows, n_vars, n_obs in *. simpl in Hshape.
  by rewrite length_fmap, length_seq in Hshape.
Qed.

(** A [harmonize] that raises has written nothing. *)
Lemma harmonize_fail l alpha w w' e : harmonize l alpha w = (w', inl e) → w' = w.
Proof.
  unfold harmonize. intros H.
  unfold mbind, M_bind, lift, deref, store in H. simpl in H.
  repeat case_match; by simplify_eq.
Qed.

(** X5. [harmonize] writes one thing: on success the collection gains
    [uns["sample_adata"]] and is otherwise as it was (the neighbourhood
    table included), no other object changes and no library is called; when
    it raises, nothing at all has changed. *)
Theorem harmonize_frame l alpha w w' r :
  harmonize l alpha w = (w', r) →
  trace w' = trace w ∧
  (∀ l', l' ≠ l → heap w' !! l' = heap w !! l') ∧
  (∀ e, r = inl e → w' = w) ∧
  (r = inr () →
     ∃ a a' sample_adata,
       heap w !! l = Some a ∧ heap w' !! l = Some a' ∧
       X a' = X a ∧ obs a' = obs a ∧ var a' = var a ∧ obsm a' = obsm a ∧
       varm a' = varm a ∧ obsp a' = obsp a ∧ varp a' = varp a ∧
       uns a' !! "sample_adata" = Some (UnsAnnData sample_adata) ∧
       ∀ k, k ≠ "sample_adata" → uns a' !! k = uns a !! k).
Proof.
  intros H. destruct r as [e|[]].
  - apply harmonize_fail in H as ->. split_and!; [done..|by intros ? _|done].
  - apply harmonize_success in H
      as (a & nh & fdr & logFC & sb & eb & nhoods & Ha & _ & _ & _ & _ & _ & _ & _ & ->).
    simpl. split_and!; [done| |done|].
    + intros l' Hl'. by apply list_lookup_insert_ne.
    + intros _. eexists a, _, _. split; [done|].
      split; [apply lookup_store; by eapply lookup_lt_Some|].
      simpl. split_and!; [done..|apply lookup_insert_eq|].
      intros k Hk. by rewrite lookup_insert_ne.
Qed.

Lemma harmonize_frame_witness :
  let w := Cases.tested in
  let run := harmonize 2 float_0_1 w in
  trace run.1 = trace w ∧
  (∀ l', l' ≠ 2 → heap run.1 !! l' = heap w !! l') ∧
  (∀ e, run.2 = inl e → run.1 = w) ∧
  (run.2 = inr () →
     ∃ a a' sample_adata,
       heap w !! 2 = Some a ∧ heap run.1 !! 2 = Some a' ∧
       X a' = X a ∧ obs a' = obs a ∧ var a' = var a ∧ obsm a' = obsm a ∧
       varm a' = varm a ∧ obsp a' = obsp a ∧ varp a' = varp a ∧
       uns a' !! "sample_adata" = Some (UnsAnnData sample_adata) ∧
       ∀ k, k ≠ "sample_adata" → uns a' !! k = uns a !! k).
Proof.
  intros w run. apply (harmonize_frame 2 float_0_1 w run.1 run.2).
  vm_compute. reflexivity.
Defined.

(** X6. The harmonized table is the neighbourhood table turned over: its
    [var] has one row per neighbourhood, with the columns of the test, and
    [OOR_score] equal to [logFC]; its [obs] is the [var] of the
    neighbourhood table; [varm["groups"]] is the transposed membership
    matrix [obsm["nhoods"]], which has one column per neighbourhood. *)
Theorem harmonize_table l alpha w w' :
  harmonize l alpha w = (w', inr ()) →
  ∃ a a' nhood_adata sample_adata nhoods logFC,
    heap w !! l = Some a ∧ heap w' !! l = Some a' ∧
    uns a !! "nhood_adata" = Some (UnsAnnData nhood_adata) ∧
    uns a' !! "sample_adata" = Some (UnsAnnData sample_adata) ∧
    obsm a !! "nhoods" = Some nhoods ∧
    ncols nhoods = n_obs nhood_adata ∧
    X sample_adata = transpose (X nhood_adata) ∧
    obs sample_adata = var nhood_adata ∧
    index (var sample_adata) = index (obs nhood_adata) ∧
    varm sample_adata !! "groups" = Some (transpose nhoods) ∧
    nrows (transpose nhoods) = n_vars sample_adata ∧
    columns (obs nhood_adata) !! "logFC" = Some logFC ∧
    columns (var sample_adata) !! "OOR_score" = Some logFC ∧
    ∀ c, c ≠ "OOR_score" → c ≠ "OOR_signif" →
         columns (var sample_adata) !! c = columns (obs nhood_adata) !! c.
Proof.
  intros (a & nh & fdr & logFC & sb & eb & nhoods & Ha & Hnh & _ & HlogFC & _ & _ & Hm & Hs & ->)
    %harmonize_success.
  eexists a, _, nh, _, nhoods, logFC. simpl.
  split; [done|]. split; [apply lookup_store; by eapply lookup_lt_Some|].
  split; [done|]. split; [simpl; apply lookup_insert_eq|].
  simpl. split_and!; [done..|apply lookup_insert_eq| |done| |].
  - unfold nrows, n_vars. simpl. by rewrite length_fmap, length_seq.
  - by rewrite lookup_insert_ne, lookup_insert_eq.
  - intros c H1 H2. by rewrite !lookup_insert_ne.
Qed.

Lemma harmonize_table_witness :
  let w := Cases.tested in
  let w' := (harmonize 2 float_0_1 w).1 in
  ∃ a a' nhood_adata sample_adata nhoods logFC,
    heap w !! 2 = Some a ∧ heap w' !! 2 = Some a' ∧
    uns a !! "nhood_adata" = Some (UnsAnnData nhood_adata) ∧
    uns a' !! "sample_adata" = Some (UnsAnnData sample_adata) ∧
    obsm a !! "nhoods" = Some nhoods ∧
    ncols nhoods = n_obs nhood_adata ∧
    X sample_adata = transpose (X nhood_adata) ∧
    obs sample_adata = var nhood_adata ∧
    index (var sample_adata) = index (obs nhood_adata) ∧
    varm sample_adata !! "groups" = Some (transpose nhoods) ∧
    nrows (transpose nhoods) = n_vars sample_adata ∧
    columns (obs nhood_adata) !! "logFC" = Some logFC ∧
    columns (var sample_adata) !! "OOR_score" = Some logFC ∧
    ∀ c, c ≠ "OOR_score" → c ≠ "OOR_signif" →
         columns (var sample_adata) !! c = columns (obs nhood_adata) !! c.
Proof.
  intros w w'. apply (harmonize_table 2 float_0_1 w w'). vm_compute. reflexivity.
Defined.

Lemma lift_bind {A B} (x : pyresult A) (k : A → M B) w :
  (lift x ≫= k) w = match x with inl e => (w, inl e) | inr a => k a w end.
Proof. rewrite bind_run. unfold lift. by destruct x. Qed.

(** X7. [harmonize] looks its inputs up in a fixed order and raises at the
    first one that is missing: [KeyError] for the neighbourhood table, then
    for its [logFC] column, then for its [SpatialFDR] column, then, once the
    two columns have been compared, for the membership matrix
    [obsm["nhoods"]]; a membership matrix that does not have one column per
    neighbourhood is a [ValueError]. In each case nothing has been
    written. *)
Theorem harmonize_errors l alpha w a :
  heap w !! l = Some a →
  (uns a !! "nhood_adata" = None →
     harmonize l alpha w = (w, inl (KeyError "nhood_adata"))) ∧
  (∀ nhood_adata,
     uns a !! "nhood_adata" = Some (UnsAnnData nhood_adata) →
     (columns (obs nhood_adata) !! "logFC" = None →
        harmonize l alpha w = (w, inl (KeyError "logFC"))) ∧
     (∀ logFC,
        columns (obs nhood_adata) !! "logFC" = Some logFC →
        (columns (obs nhood_adata) !! "SpatialFDR" = None →
           harmonize l alpha w = (w, inl (KeyError "SpatialFDR"))) ∧
        (∀ fdr signif enriched,
           columns (obs nhood_adata) !! "SpatialFDR" = Some fdr →
           Series_lt_float fdr alpha = inr signif →
           Series_gt_int logFC 0 = inr enriched →
           (obsm a !! "nhoods" = None →
              harmonize l alpha w = (w, inl (KeyError "nhoods"))) ∧
           (∀ nhoods,
              obsm a !! "nhoods" = Some nhoods →
              ncols nhoods ≠ n_obs nhood_adata →
              harmonize l alpha w =
                (w, inl (ValueError "Value passed for key is of incorrect shape")))))).
Proof.
  intros Ha.
  assert (∀ k : AnnData → M (), (deref l ≫= k) w = k a w) as Hderef.
  { intros k. by rewrite bind_run, (deref_Some _ _ _ Ha). }
  split.
  { intros Hn. unfold harmonize. rewrite Hderef, lift_bind.
    unfold get_uns_adata. by rewrite Hn. }
  intros nh Hn.
  assert (get_uns_adata a "nhood_adata" = inr nh) as E1.
  { unfold get_uns_adata. by rewrite Hn. }
  split.
  { intros HlogFC. unfold harmonize. rewrite Hderef, lift_bind, E1, lift_bind.
    unfold df_get. simpl. by rewrite HlogFC. }
  intros logFC HlogFC.
  assert (df_get (var (AnnData_T nh)) "logFC" = inr logFC) as E2.
  { unfold df_get. simpl. by rewrite HlogFC. }
  assert (∀ df, df_get (var (set_var (df_set (var (AnnData_T nh)) "OOR_score" logFC) df))
                  "logFC" = inr logFC) as E4.
  { intros df. unfold df_get. simpl. rewrite lookup_insert_ne by done. by rewrite HlogFC. }
  split.
  { intros Hfdr. unfold harmonize. rewrite Hderef, lift_bind, E1, lift_bind, E2, lift_bind.
    unfold df_get. simpl. rewrite lookup_insert_ne by done. by rewrite Hfdr. }
  intros fdr sb eb Hfdr Hsb Heb.
  assert (∀ df, df_get (var (set_var (df_set (var (AnnData_T nh)) "OOR_score" logFC) df))
                  "SpatialFDR" = inr fdr) as E3.
  { intros df. unfold df_get. simpl. rewrite lookup_insert_ne by done. by rewrite Hfdr. }
  assert (∀ nhoods_result,
            get_obsm a "nhoods" = nhoods_result →
            match nhoods_result with
            | inl e => harmonize l alpha w = (w, inl e)
            | inr nhoods =>
                ncols nhoods ≠ n_obs nh →
                harmonize l alpha w =
                  (w, inl (ValueError "Value passed for key is of incorrect shape"))
            end) as Hrest.
  { intros res Hres. unfold harmonize.
    rewrite Hderef, lift_bind, E1, lift_bind, E2, lift_bind, E3, lift_bind, Hsb.
    rewrite lift_bind, E4, lift_bind, Heb, lift_bind, Hres.
    destruct res as [e|nhoods]; [done|].
    intros Hshape. rewrite lift_bind. unfold set_varm.
    rewrite bool_decide_eq_false_2; [done|].
    unfold nrows, n_vars. simpl. by rewrite length_fmap, length_seq. }
  split.
  - intros Hm. apply (Hrest (inl (KeyError "nhoods"))). unfold get_obsm. by rewrite Hm.
  - intros nhoods Hm Hshape. apply (Hrest (inr nhoods)); [|done].
    unfold get_obsm. by rewrite Hm.
Qed.

Lemma harmonize_errors_witness :
  harmonize 0 float_0_1 (Demo.world Demo.adata0) =
    (Demo.world Demo.adata0, inl (KeyError "nhood_adata")).
Proof.
  destruct (harmonize_errors 0 float_0_1 (Demo.world Demo.adata0) Demo.adata0 eq_refl)
    as [Hmissing _].
  apply Hmissing. reflexivity.
Defined.

(** X8. In the harmonized table a flag implies a positive score: a row with
    [OOR_signif = 1] has an [OOR_score] strictly above 0. A row whose
    [logFC] is negative, zero or NaN, or whose [SpatialFDR] is NaN, is never
    flagged. *)
Theorem flagged_rows_have_positive_score l alpha w w' :
  harmonize l alpha w = (w', inr ()) →
  ∃ a' sample_adata fdr score signif,
    heap w' !! l = Some a' ∧
    uns a' !! "sample_adata" = Some (UnsAnnData sample_adata) ∧
    columns (var sample_adata) !! "SpatialFDR" = Some fdr ∧
    columns (var sample_adata) !! "OOR_score" = Some score ∧
    columns (var sample_adata) !! "OOR_signif" = Some (ColInt signif) ∧
    (∀ i, signif !! i = Some 1%Z →
          ∃ f, Series_values score !! i = Some f ∧ value_gt_int 0 f = inr true) ∧
    (∀ i x, Series_values score !! i = Some (VFloat x) →
            x = S754_nan ∨ x = S754_infinity true ∨ (∃ s, x = S754_zero s) ∨
            (∃ m e, x = S754_finite true m e) →
            signif !! i ≠ Some 1%Z) ∧
    (∀ i, Series_values fdr !! i = Some (VFloat S754_nan) → signif !! i ≠ Some 1%Z).
Proof.
  intros (a & nh & fdr & logFC & sb & eb & nhoods & Ha & _ & Hfdr & HlogFC & Hsb & Heb & _ & _ & ->)
    %harmonize_success.
  eexists _, _, fdr, logFC, _. simpl.
  split; [apply lookup_store; by eapply lookup_lt_Some|].
  split; [simpl; apply lookup_insert_eq|]. simpl.
  split; [by rewrite !lookup_insert_ne|].
  split; [by rewrite lookup_insert_ne, lookup_insert_eq|].
  split; [by rewrite lookup_insert_eq|].
  assert (∀ i, (Z.b2z <$> Series_and sb eb) !! i = Some 1%Z →
               ∃ p f, Series_values fdr !! i = Some p ∧ Series_values logFC !! i = Some f ∧
                      value_lt_float alpha p = inr true ∧ value_gt_int 0 f = inr true)
    as Hflag.
  { intros i Hi. unfold Series_and in Hi.
    rewrite list_lookup_fmap, lookup_zip_with in Hi.
    destruct (sb !! i) as [b1|] eqn:Hb1; [|done].
    destruct (eb !! i) as [b2|] eqn:Hb2; [|done]. simpl in Hi.
    destruct b1, b2; try done.
    apply traverse_inr in Hsb, Heb.
    destruct (Forall2_lookup_r _ _ _ _ _ Hsb Hb1) as (p & Hp & ?).
    destruct (Forall2_lookup_r _ _ _ _ _ Heb Hb2) as (f & Hf & ?).
    by exists p, f. }
  split_and!.
  - intros i (p & f & _ & Hf & _ & Hgt)%Hflag. by exists f.
  - intros i x Hx Hcase (p & f & _ & Hf & _ & Hgt)%Hflag.
    rewrite Hx in Hf. injection Hf as <-. simpl in Hgt.
    destruct Hcase as [->|[->|[[s ->]|(m & e & ->)]]]; by destruct s || done.
  - intros i Hnan (p & f & Hp & _ & Hlt & _)%Hflag.
    rewrite Hnan in Hp. by injection Hp as <-.
Qed.

Lemma flagged_rows_have_positive_score_witness :
  let w := Cases.tested in
  let w' := (harmonize 2 float_0_1 w).1 in
  ∃ a' sample_adata fdr score signif,
    heap w' !! 2 = Some a' ∧
    uns a' !! "sample_adata" = Some (UnsAnnData sample_adata) ∧
    columns (var sample_adata) !! "SpatialFDR" = Some fdr ∧
    columns (var sample_adata) !! "OOR_score" = Some score ∧
    columns (var sample_adata) !! "OOR_signif" = Some (ColInt signif) ∧
    (∀ i, signif !! i = Some 1%Z →
          ∃ f, Series_values score !! i = Some f ∧ value_gt_int 0 f = inr true) ∧
    (∀ i x, Series_values score !! i = Some (VFloat x) →
            x = S754_nan ∨ x = S754_infinity true ∨ (∃ s, x = S754_zero s) ∨
            (∃ m e, x = S754_finite true m e) →
            signif !! i ≠ Some 1%Z) ∧
    (∀ i, Series_values fdr !! i = Some (VFloat S754_nan) → signif !! i ≠ Some 1%Z).
Proof.
  intros w w'. apply (flagged_rows_have_positive_score 2 float_0_1 w w').
  vm_compute. reflexivity.
Defined.

(** * More on the embedding step *)

Section EmbeddingCalls.
Context (ext : Externals).

Lemma load_persisted_embedding_trace l er d w w' r :
  load_persisted_embedding ext l er d w = (w', r) →
  (trace w' = trace w ++ [EvLoad (model_dir d er)] ∧ ∃ e, r = inl e) ∨
  trace w' = trace w ++ [EvLoad (model_dir d er); EvLoad (model_fit_dir d er)].
Proof.
  unfold load_persisted_embedding, load_model. intros H.
  unfold mbind, M_bind, emit, lift, deref, store in H. simpl in H.
  repeat case_match; simplify_eq; simpl; rewrite <-?app_assoc; eauto.
Qed.

Lemma train_embedding_trace l er outdir kwargs w w' r :
  train_embedding ext l er outdir kwargs w = (w', r) →
  trace w' = trace w ∨
  ∃ a, heap w !! l = Some a ∧ trace w' = trace w ++ [EvTrain a er outdir "sample_id" kwargs].
Proof.
  intros H. destruct (repeated_keyword kwargs) eqn:Hkw.
  { rewrite (train_embedding_repeated ext _ _ _ _ _ Hkw) in H. injection H as <- _. by left. }
  destruct (heap w !! l) as [a|] eqn:Ha.
  - destruct (train_embedding_inv ext _ _ _ _ _ _ _ _ Hkw Ha H) as [E _]. eauto.
  - unfold train_embedding, call_inplace in H. rewrite Hkw, bind_run in H.
    unfold deref in H. rewrite Ha in H. injection H as <- _. by left.
Qed.

(** What the embedding step asks of the libraries, whatever its outcome. *)
Lemma embed_trace l er outdir kwargs w w' r :
  embed ext l er outdir kwargs w = (w', r) →
  ∃ loads trains,
    trace w' = trace w ++ loads ++ trains ∧
    (outdir = None → loads = []) ∧
    (∀ d, outdir = Some d →
          loads `prefix_of` [EvLoad (model_dir d er); EvLoad (model_fit_dir d er)]) ∧
    (trains = [] ∨ ∃ a, trains = [EvTrain a er outdir "sample_id" kwargs]).
Proof.
  unfold embed. intros H.
  apply bind_inv in H as [(e & [-> _]%deref_inv & ->)|(a & w1 & [-> Ha]%deref_inr & H)].
  { exists [], []. rewrite app_nil_r. split_and!; [done..| |by left].
    intros d _. apply prefix_nil. }
  case_bool_decide.
  { injection H as <- <-. exists [], []. rewrite app_nil_r. split_and!; [done..| |by left].
    intros d _. apply prefix_nil. }
  destruct outdir as [d|].
  - unfold try_except in H.
    destruct (load_persisted_embedding ext l er d w) as [w1 r1] eqn:Hload.
    assert (∃ loads, trace w1 = trace w ++ loads ∧
              loads `prefix_of` [EvLoad (model_dir d er); EvLoad (model_fit_dir d er)])
      as (loads & E1 & Hpre).
    { apply load_persisted_embedding_trace in Hload as [[E _]|E].
      - eexists. split; [done|]. by exists [EvLoad (model_fit_dir d er)].
      - eexists. split; [done|]. by exists []. }
    assert (∀ trains, trace w' = trace w1 ++ trains →
              (trains = [] ∨ ∃ a, trains = [EvTrain a er (Some d) "sample_id" kwargs]) →
              ∃ loads trains,
                trace w' = trace w ++ loads ++ trains ∧
                (Some d = None → loads = []) ∧
                (∀ d0, Some d = Some d0 →
                   loads `prefix_of`
                     [EvLoad (model_dir d0 er); EvLoad (model_fit_dir d0 er)]) ∧
                (trains = [] ∨ ∃ a, trains = [EvTrain a er (Some d) "sample_id" kwargs]))
      as Hfin.
    { intros trains E Htr. exists loads, trains. rewrite E, E1, <-app_assoc.
      split_and!; [done|done| |done]. by intros ? [= <-]. }
    destruct r1 as [e|[]].
    + destruct (load_failure e).
      * apply train_embedding_trace in H as [E|(a' & _ & E)].
        -- apply (Hfin []); [by rewrite app_nil_r|by left].
        -- eapply Hfin; [exact E|right; eauto].
      * injection H as <- <-. apply (Hfin []); [by rewrite app_nil_r|by left].
    + injection H as <- <-. apply (Hfin []); [by rewrite app_nil_r|by left].
  - apply train_embedding_trace in H as [E|(a' & _ & E)].
    + exists [], []. rewrite app_nil_r. split_and!; [done|done|done|by left].
    + exists [], [EvTrain a' er None "sample_id" kwargs]. split_and!; [done|done|done|].
      right. eauto.
Qed.

End EmbeddingCalls.

(** X9. Whatever its outcome, a run of the workflow loads at most the two
    model directories [model_<embedding_reference>/] and
    [model_fit_query2<embedding_reference>/] under [outdir], the reference
    model first, and none without an [outdir]; it calls [embedding_scArches]
    at most once, after the loads, with [ref_dataset = embedding_reference],
    the caller's [outdir], [batch_key = "sample_id"] and the caller's extra
    keyword arguments; nothing after the embedding step loads or trains. *)
Theorem embedding_calls ext adata er dr sample_col annotation_col alpha outdir
    harmonize_output design kwargs w w' r :
  scArches_milo ext adata er dr sample_col annotation_col alpha outdir harmonize_output
    design kwargs w = (w', r) →
  ∃ loads trains rest,
    trace w' = trace w ++ loads ++ trains ++ rest ∧
    (outdir = None → loads = []) ∧
    (∀ d, outdir = Some d →
          loads `prefix_of` [EvLoad (model_dir d er); EvLoad (model_fit_dir d er)]) ∧
    (trains = [] ∨ ∃ a, trains = [EvTrain a er outdir "sample_id" kwargs]) ∧
    Forall (λ ev, is_load ev = false ∧ is_train ev = false) rest.
Proof.
  rewrite scArches_milo_unfold. intros H.
  assert (∀ w1, trace w1 = trace w → w' = w1 →
           ∃ loads trains rest,
             trace w' = trace w ++ loads ++ trains ++ rest ∧
             (outdir = None → loads = []) ∧
             (∀ d, outdir = Some d →
                loads `prefix_of` [EvLoad (model_dir d er); EvLoad (model_fit_dir d er)]) ∧
             (trains = [] ∨ ∃ a, trains = [EvTrain a er outdir "sample_id" kwargs]) ∧
             Forall (λ ev, is_load ev = false ∧ is_train ev = false) rest) as Hnone.
  { intros w1 E ->. exists [], [], []. rewrite app_nil_r, E.
    split_and!; [done..| |by left|done]. intros d _. apply prefix_nil. }
  apply bind_inv in H as [(e & H & ->)|(l & w1 & H1 & H)].
  { apply (emits_select_datasets (λ _, False)) in H as (evs & E & F).
    destruct evs; [|by inversion F]. rewrite app_nil_r in E. by apply (Hnone w'). }
  apply (emits_select_datasets (λ _, False)) in H1 as (evs & E1 & F).
  destruct evs; [|by inversion F]. rewrite app_nil_r in E1.
  apply bind_inv in H as [(e & H & ->)|([] & w2 & H2 & H)].
  - apply embed_trace in H as (loads & trains & E & Hl1 & Hl2 & Ht).
    exists loads, trains, []. rewrite app_nil_r, E, E1. by split_and!.
  - apply embed_trace in H2 as (loads & trains & E & Hl1 & Hl2 & Ht).
    eapply (emits_after_embedding ext (λ ev, is_load ev = false ∧ is_train ev = false))
      in H as (rest & E' & F'); [|by intros []..].
    exists loads, trains, rest. rewrite E', E, E1, <-!app_assoc. by split_and!.
Qed.

Lemma embedding_calls_witness :
  let w := Demo.world Demo.adata_rq in
  let w' := (scArches_milo Demo.ext 0 "atlas" "atlas" "sample_id" "cell_annotation"
               float_0_1 (Some "out") true "~ is_query" ∅ w).1 in
  ∃ loads trains rest,
    trace w' = trace w ++ loads ++ trains ++ rest ∧
    (Some "out" = None → loads = []) ∧
    (∀ d, Some "out" = Some d →
          loads `prefix_of` [EvLoad (model_dir d "atlas"); EvLoad (model_fit_dir d "atlas")]) ∧
    (trains = [] ∨ ∃ a, trains = [EvTrain a "atlas" (Some "out") "sample_id" ∅]) ∧
    Forall (λ ev, is_load ev = false ∧ is_train ev = false) rest.
Proof.
  intros w w'.
  apply (embedding_calls Demo.ext 0 "atlas" "atlas" "sample_id" "cell_annotation"
           float_0_1 (Some "out") true "~ is_query" ∅ w w' (inr 1)).
  vm_compute. reflexivity.
Defined.

(** X10. When the load attempt raises one of the two handled exceptions and
    the extra keyword arguments repeat no keyword of the call of lines
    92-94, the working collection is still the copy made by the first
    subset, and that copy is what [embedding_scArches] is called on, with
    the same [outdir]; at least the reference model had been tried
    before. *)
Theorem fallback_trains_selected_copy ext adata er dr sample_col annotation_col alpha d
    harmonize_output design kwargs w a0 grp w2 e :
  heap w !! adata = Some a0 →
  columns (obs a0) !! "dataset_group" = Some grp →
  obsm a0 !! "X_scVI" = None →
  let a1 := subset_obs (Series_isin grp [er; dr; "query"]) a0 in
  let w1 := mkWorld (heap w ++ [a1]) (trace w) in
  let run :=
    scArches_milo ext adata er dr sample_col annotation_col alpha (Some d) harmonize_output
      design kwargs w in
  load_persisted_embedding ext (length (heap w)) er d w1 = (w2, inl e) →
  load_failure e = true →
  repeated_keyword kwargs = false →
  heap w2 = heap w1 ∧
  ∃ loads rest,
    trace run.1 = trace w ++ loads ++ EvTrain a1 er (Some d) "sample_id" kwargs :: rest ∧
    loads ≠ [] ∧
    Forall (λ ev, is_load ev = true) loads ∧
    Forall (λ ev, is_load ev = false ∧ is_train ev = false) rest.
Proof.
  intros Ha Hgrp HX a1 w1 run Hload Hcaught Hkw.
  assert (heap w1 !! length (heap w) = Some a1) as Ha1 by apply lookup_alloc.
  assert (obsm a1 !! "X_scVI" = None) as HX1.
  { subst a1. simpl. by rewrite lookup_fmap, HX. }
  destruct (load_persisted_embedding_fail ext _ _ _ _ _ _ Hload) as (Hheap & loads & E0 & F0).
  split; [done|].
  assert (loads ≠ []) as Hne.
  { apply load_persisted_embedding_trace in Hload as [[E _]|E];
      rewrite E0 in E; apply app_inv_head in E; by subst. }
  assert (run =
            (train_embedding ext (length (heap w)) er (Some d) kwargs;;
             after_embedding ext (length (heap w)) er dr sample_col annotation_col alpha
               harmonize_output design) w2) as Hrun.
  { subst run. rewrite scArches_milo_unfold, bind_run.
    rewrite (select_datasets_run _ _ _ _ _ _ Ha Hgrp). fold a1 w1.
    rewrite !bind_run, (embed_try ext _ _ _ _ _ _ Ha1 HX1).
    unfold try_except. by rewrite Hload, Hcaught. }
  assert (heap w2 !! length (heap w) = Some a1) as Ha2 by (by rewrite Hheap).
  rewrite Hrun, bind_run.
  destruct (train_embedding ext _ er (Some d) kwargs w2) as [w3 [e3|[]]] eqn:E;
    destruct (train_embedding_inv ext _ _ _ _ _ _ _ _ Hkw Ha2 E) as [Et _].
  - exists loads, []. simpl. rewrite Et, E0, <-app_assoc. split_and!; [done|done| |done].
    eapply Forall_impl; [done|]. by intros ? [? _].
  - destruct (after_embedding _ _ _ _ _ _ _ _ _ w3) as [w4 r4] eqn:E4.
    eapply (emits_after_embedding ext (λ ev, is_load ev = false ∧ is_train ev = false))
      in E4 as (rest & E' & F); [|by intros []..].
    exists loads, rest. simpl. rewrite E', Et, E0, <-!app_assoc.
    split_and!; [done|done| |done].
    eapply Forall_impl; [done|]. by intros ? [? _].
Qed.

Lemma fallback_trains_selected_copy_witness :
  let w := Demo.world Demo.adata_rq in
  let grp := ColStr ["atlas"; "query"] in
  let e := FileNotFoundError "out/model_atlas/" in
  let a1 := subset_obs (Series_isin grp ["atlas"; "atlas"; "query"]) Demo.adata_rq in
  let w1 := mkWorld (heap w ++ [a1]) (trace w) in
  let w2 := mkWorld (heap w1) [EvLoad "out/model_atlas/"] in
  let run :=
    scArches_milo Demo.ext 0 "atlas" "atlas" "sample_id" "cell_annotation" float_0_1
      (Some "out") true "~ is_query" ∅ w in
  heap w2 = heap w1 ∧
  ∃ loads rest,
    trace run.1 = trace w ++ loads ++ EvTrain a1 "atlas" (Some "out") "sample_id" ∅ :: rest ∧
    loads ≠ [] ∧
    Forall (λ ev, is_load ev = true) loads ∧
    Forall (λ ev, is_load ev = false ∧ is_train ev = false) rest.
Proof.
  intros w grp e a1 w1 w2 run.
  assert (heap w !! 0 = Some Demo.adata_rq) as H1 by reflexivity.
  assert (columns (obs Demo.adata_rq) !! "dataset_group" = Some grp) as H2
    by (vm_compute; reflexivity).
  assert (obsm Demo.adata_rq !! "X_scVI" = None) as H3 by (vm_compute; reflexivity).
  assert (load_persisted_embedding Demo.ext (length (heap w)) "atlas" "out" w1 = (w2, inl e))
    as H4 by (vm_compute; reflexivity).
  assert (load_failure e = true) as H5 by (vm_compute; reflexivity).
  assert (repeated_keyword (∅ : gmap string pyval) = false) as H6 by (vm_compute; reflexivity).
  exact (fallback_trains_selected_copy Demo.ext 0 "atlas" "atlas" "sample_id"
           "cell_annotation" float_0_1 "out" true "~ is_query" ∅ w Demo.adata_rq grp w2 e
           H1 H2 H3 H4 H5 H6).
Defined.



(** X12. A failure of [embedding_scArches] is never handled, whatever its
    class: entered for want of an [outdir], or as the fallback of a failed
    load, with extra keyword arguments that repeat none of its keywords,
    its exception is the outcome of the workflow, and neither the graph nor
    the test is reached. *)
Theorem training_error_propagates ext adata er dr sample_col annotation_col alpha outdir
    harmonize_output design kwargs w a0 grp e :
  heap w !! adata = Some a0 →
  columns (obs a0) !! "dataset_group" = Some grp →
  obsm a0 !! "X_scVI" = None →
  let a1 := subset_obs (Series_isin grp [er; dr; "query"]) a0 in
  let w1 := mkWorld (heap w ++ [a1]) (trace w) in
  let run :=
    scArches_milo ext adata er dr sample_col annotation_col alpha outdir harmonize_output
      design kwargs w in
  repeated_keyword kwargs = false →
  embedding_scArches ext a1 er outdir "sample_id" kwargs = inl e →
  (outdir = None →
     run = (mkWorld (heap w1) (trace w ++ [EvTrain a1 er None "sample_id" kwargs]), inl e)) ∧
  (∀ d w2 e0,
     outdir = Some d →
     load_persisted_embedding ext (length (heap w)) er d w1 = (w2, inl e0) →
     load_failure e0 = true →
     run = (mkWorld (heap w1) (trace w2 ++ [EvTrain a1 er (Some d) "sample_id" kwargs]),
            inl e)).
Proof.
  intros Ha Hgrp HX a1 w1 run Hkw Hfail.
  assert (heap w1 !! length (heap w) = Some a1) as Ha1 by apply lookup_alloc.
  assert (obsm a1 !! "X_scVI" = None) as HX1.
  { subst a1. simpl. by rewrite lookup_fmap, HX. }
  assert (run = (embed ext (length (heap w)) er outdir kwargs;;
                 after_embedding ext (length (heap w)) er dr sample_col annotation_col alpha
                   harmonize_output design) w1) as Hrun.
  { subst run. rewrite scArches_milo_unfold, bind_run.
    by rewrite (select_datasets_run _ _ _ _ _ _ Ha Hgrp). }
  split.
  - intros ->. rewrite Hrun, bind_run, (embed_train ext _ _ _ _ _ Ha1 HX1).
    unfold train_embedding. rewrite Hkw, (call_inplace_run _ _ _ _ _ Ha1). by rewrite Hfail.
  - intros d w2 e0 -> Hload Hcaught.
    destruct (load_persisted_embedding_fail ext _ _ _ _ _ _ Hload) as (Hheap & _).
    rewrite Hrun, bind_run, (embed_try ext _ _ _ _ _ _ Ha1 HX1).
    unfold try_except. rewrite Hload, Hcaught.
    unfold train_embedding. rewrite Hkw, (call_inplace_run _ _ _ _ a1) by (by rewrite Hheap).
    by rewrite Hfail, Hheap.
Qed.

Lemma training_error_propagates_witness :
  let w := Demo.world Demo.adata_rq in
  let grp := ColStr ["atlas"; "query"] in
  let a1 := subset_obs (Series_isin grp ["atlas"; "atlas"; "query"]) Demo.adata_rq in
  let w1 := mkWorld (heap w ++ [a1]) (trace w) in
  scArches_milo Cases.ext_train_fails 0 "atlas" "atlas" "sample_id" "cell_annotation"
    float_0_1 None true "~ is_query" ∅ w =
  (mkWorld (heap w1) (trace w ++ [EvTrain a1 "atlas" None "sample_id" ∅]),
   inl (ValueError "training failed")).
Proof.
  intros w grp a1 w1.
  destruct (training_error_propagates Cases.ext_train_fails 0 "atlas" "atlas" "sample_id"
              "cell_annotation" float_0_1 None true "~ is_query" ∅ w Demo.adata_rq grp
              (ValueError "training failed")) as [Hnone _].
  - reflexivity.
  - vm_compute. reflexivity.
  - vm_compute. reflexivity.
  - vm_compute. reflexivity.
  - reflexivity.
  - by apply Hnone.
Defined.

(** * More on the neighbour count *)

Lemma n_distinct_zero l : n_distinct l = 0 ↔ l = [].
Proof.
  unfold n_distinct. split; [|by intros ->].
  intros H%nil_length_inv. destruct l as [|v l]; [done|].
  assert (hash_key v ∈ remove_dups (hash_key <$> v :: l)) as Hin.
  { apply elem_of_remove_dups. simpl. by left. }
  rewrite H in Hin. by apply elem_of_nil in Hin.
Qed.

(** With the two columns in place the counting cannot fail. *)
Lemma n_samples_run a group sample_col grp s w :
  columns (obs a) !! "dataset_group" = Some grp →
  columns (obs a) !! sample_col = Some s →
  n_samples a group sample_col w =
    (w, inr (Z.of_nat (n_distinct (group_samples a sample_col group)))).
Proof.
  intros Hg Hs.
  destruct (n_samples a group sample_col w) as [w1 r] eqn:E.
  destruct (n_samples_inv _ _ _ _ _ _ E) as [-> Hr].
  destruct r as [e|n]; [|by rewrite (Hr n eq_refl)].
  exfalso. unfold n_samples, df_get in E. rewrite Hg in E.
  rewrite lift_bind in E. simpl in E. rewrite lookup_fmap, Hs in E. simpl in E.
  rewrite lift_bind in E. done.
Qed.

(** The graph builder is called whenever the two counts can be taken,
    whatever they are and whatever it answers. *)
Lemma make_knn_graph_called ext l dr sample_col a grp s w :
  heap w !! l = Some a →
  columns (obs a) !! "dataset_group" = Some grp →
  columns (obs a) !! sample_col = Some s →
  trace (make_knn_graph ext l dr sample_col w).1 =
    trace w ++
      [EvNeighbors a "X_scVI"
         (5 * (Z.of_nat (n_distinct (group_samples a sample_col dr))
               + Z.of_nat (n_distinct (group_samples a sample_col "query"))))].
Proof.
  intros Ha Hg Hs. unfold make_knn_graph.
  rewrite bind_run, (deref_Some _ _ _ Ha).
  rewrite bind_run, (n_samples_run _ _ _ _ _ _ Hg Hs).
  rewrite bind_run, (n_samples_run _ _ _ _ _ _ Hg Hs).
  rewrite (call_inplace_run _ _ _ _ _ Ha).
  replace ((_ + _) * 5)%Z with
    (5 * (Z.of_nat (n_distinct (group_samples a sample_col dr))
          + Z.of_nat (n_distinct (group_samples a sample_col "query"))))%Z by lia.
  by destruct (sc_pp_neighbors _ _ _ _).
Qed.

(** X13. The number of neighbours asked of the graph builder is a multiple
    of 5 that is never negative, and it is 0 exactly when the collection
    handed over has neither a cell of [diff_reference] nor a query cell.
    The workflow makes the call all the same: a run that returns has made
    it, and on a collection that has the two columns and no cell of either
    group, lines 103-105 call the graph builder with 0 neighbours, whatever
    it answers. *)
Theorem n_neighbors_edge ext adata er dr sample_col annotation_col alpha outdir
    harmonize_output design kwargs w w' r :
  scArches_milo ext adata er dr sample_col annotation_col alpha outdir harmonize_output
    design kwargs w = (w', r) →
  (∃ evs, trace w' = trace w ++ evs ∧
    (∀ a use_rep k, EvNeighbors a use_rep k ∈ evs →
       (0 ≤ k)%Z ∧ (k mod 5 = 0)%Z ∧
       (k = 0%Z ↔ group_samples a sample_col dr = [] ∧
                  group_samples a sample_col "query" = [])) ∧
    (∀ l, r = inr l → ∃ pre a k post, evs = pre ++ EvNeighbors a "X_scVI" k :: post)) ∧
  (∀ l w0 a grp s,
     heap w0 !! l = Some a →
     columns (obs a) !! "dataset_group" = Some grp →
     columns (obs a) !! sample_col = Some s →
     group_samples a sample_col dr = [] →
     group_samples a sample_col "query" = [] →
     trace (make_knn_graph ext l dr sample_col w0).1 =
       trace w0 ++ [EvNeighbors a "X_scVI" 0]).
Proof.
  intros H. split.
  - destruct (emits_neighbors_ok _ _ _ _ _ _ _ _ _ _ _ _ _ _ H) as (evs & E & F).
    exists evs. split_and!; [done| |].
    + intros a use_rep k Hin.
      rewrite Forall_forall in F. destruct (F _ Hin) as [_ ->].
      rewrite <-!n_distinct_zero. split_and!; [lia| |lia].
      rewrite Z.mul_comm. apply Z.mod_mul. lia.
    + intros l ->. apply neighbors_called in H as (pre & a & k & post & Htr).
      rewrite E in Htr. apply app_inv_head in Htr as ->. by exists pre, a, k, post.
  - intros l w0 a grp s Ha Hg Hs Hdr Hq.
    rewrite (make_knn_graph_called _ _ _ _ _ _ _ _ Ha Hg Hs), Hdr, Hq. done.
Qed.

Lemma n_neighbors_edge_witness :
  let a := Cases.adata_atlas_only in
  let w := Demo.world a in
  let run := scArches_milo Demo.ext 0 "atlas" "ctrl" "sample_id" "cell_annotation"
               float_0_1 None false "~ is_query" ∅ w in
  (∃ evs, trace run.1 = trace w ++ evs ∧
    (∀ a use_rep k, EvNeighbors a use_rep k ∈ evs →
       (0 ≤ k)%Z ∧ (k mod 5 = 0)%Z ∧
       (k = 0%Z ↔ group_samples a "sample_id" "ctrl" = [] ∧
                  group_samples a "sample_id" "query" = [])) ∧
    (∀ l, run.2 = inr l → ∃ pre a k post, evs = pre ++ EvNeighbors a "X_scVI" k :: post)) ∧
  trace (make_knn_graph Demo.ext 0 "ctrl" "sample_id" w).1 =
    trace w ++ [EvNeighbors a "X_scVI" 0].
Proof.
  intros a w run.
  destruct (n_neighbors_edge Demo.ext 0 "atlas" "ctrl" "sample_id" "cell_annotation"
              float_0_1 None false "~ is_query" ∅ w run.1 run.2) as [Hrun Hstage].
  - vm_compute. reflexivity.
  - split; [exact Hrun|].
    apply (Hstage 0 w a (ColStr ["atlas"; "atlas"]) (ColStr ["s0"; "s1"]));
      vm_compute; reflexivity.
Defined.

(** With only atlas cells and [diff_reference = "ctrl"], the graph builder
    is asked for 0 neighbours. *)
Example no_cells_no_neighbours :
  let run := scArches_milo Demo.ext 0 "atlas" "ctrl" "sample_id" "cell_annotation"
               float_0_1 None false "~ is_query" ∅ (Demo.world Cases.adata_atlas_only) in
  ∃ a, trace run.1 !! 1 = Some (EvNeighbors a "X_scVI" 0).
Proof. eexists. vm_compute. reflexivity. Qed.

(** * Running the embedding step again *)

Lemma fast_path_run ext l er d kwargs w a vae_ref vae_q z_q z_ref :
  heap w !! l = Some a →
  obsm a !! "X_scVI" = None →
  SCVI_load ext (model_dir d er) = inr vae_ref →
  SCVI_load ext (model_fit_dir d er) = inr vae_q →
  get_latent_representation vae_q = inr z_q →
  get_latent_representation vae_ref = inr z_ref →
  ncols z_q = ncols z_ref →
  nrows z_q + nrows z_ref = n_obs a →
  embed ext l er (Some d) kwargs w =
    (mkWorld
       (<[l := mkAnnData (X a) (obs a) (var a)
                 (<["X_scVI" := mkArray (ncols z_q) (rows z_q ++ rows z_ref)]> (obsm a))
                 (varm a) (obsp a) (varp a) (uns a)]> (heap w))
       (trace w ++ [EvLoad (model_dir d er); EvLoad (model_fit_dir d er)]),
     inr ()).
Proof.
  intros Ha HX Href Hq Hzq Hzref Hcols Hrows.
  rewrite (embed_try ext _ _ _ _ _ _ Ha HX).
  unfold try_except, load_persisted_embedding, load_model.
  unfold mbind, M_bind, emit, lift, deref, store. simpl.
  rewrite Href, Hq, Hzq, Hzref. unfold vstack. rewrite bool_decide_eq_true_2 by done.
  rewrite Ha. unfold set_obsm. rewrite bool_decide_eq_true_2.
  - by rewrite <-app_assoc.
  - unfold nrows in *. simpl. by rewrite length_app.
Qed.

(** X14. The embedding step is idempotent after the fast path: once the
    persisted models have given the embedding, running the step again on
    the same collection, with any output directory and any extra
    arguments, loads nothing, trains nothing and changes nothing. *)
Theorem embed_again_is_skipped ext l er d kwargs outdir' kwargs' w a vae_ref vae_q z_q z_ref :
  heap w !! l = Some a →
  obsm a !! "X_scVI" = None →
  SCVI_load ext (model_dir d er) = inr vae_ref →
  SCVI_load ext (model_fit_dir d er) = inr vae_q →
  get_latent_representation vae_q = inr z_q →
  get_latent_representation vae_ref = inr z_ref →
  ncols z_q = ncols z_ref →
  nrows z_q + nrows z_ref = n_obs a →
  (embed ext l er (Some d) kwargs;; embed ext l er outdir' kwargs') w =
    embed ext l er (Some d) kwargs w.
Proof.
  intros Ha HX Href Hq Hzq Hzref Hcols Hrows.
  rewrite bind_run, (fast_path_run ext _ _ _ _ _ _ _ _ _ _ Ha HX Href Hq Hzq Hzref Hcols Hrows).
  eapply embed_skip.
  - simpl. apply lookup_store. by eapply lookup_lt_Some.
  - simpl. rewrite lookup_insert_eq. eauto.
Qed.

Lemma embed_again_is_skipped_witness :
  let w := Demo.world Demo.adata_qr in
  (embed Demo.ext_persisted 0 "atlas" (Some "out") ∅;;
   embed Demo.ext_persisted 0 "atlas" None ∅) w =
    embed Demo.ext_persisted 0 "atlas" (Some "out") ∅ w.
Proof.
  intros w.
  apply (embed_again_is_skipped Demo.ext_persisted 0 "atlas" "out" ∅ None ∅ w Demo.adata_qr
           Demo.vae_ref Demo.vae_q (mkArray 1 [[Demo.f_one]]) (mkArray 1 [[Demo.f_two]]));
    reflexivity.
Defined.
